(** * AG-UI dynamic renderer and component registry

    A shallow embedding of
      - [ComponentRegistryService]   (core/services/component-registry.service.ts)
      - [DynamicRendererComponent]   (shared/components/dynamic-renderer)
      - [AguiService.validateAguiMessage] (core/services)
    together with the properties of the rendering pipeline: type resolution
    with its fallback chain, ordering and truncation of a manifest, batch
    failure, event bridging, statistics and teardown. *)

From Stdlib Require Import ZArith NArith List Permutation Sorted.
From stdpp Require Import base option list sorting strings pretty gmap fin_maps.

Local Open Scope string_scope.
Local Open Scope list_scope.

(* ===================================================================== *)
(** ** JavaScript values

    Payloads are typed [any] in the source.  The fragment below is what the
    renderer observes of them: truthiness ([x || y]), property reads
    ([eventData.type]) and object spread ([{...data, _agui: ...}]).
    Numbers are integers; members inherited from prototypes are not part
    of the model. *)
(* ===================================================================== *)

Module Js.

#[local] Set Warnings "-register-all".

Inductive value : Type :=
  | Undefined
  | Null
  | Bool (b : bool)
  | Num (n : Z)
  | Str (s : string)
  | Arr (items : list value)
  | Obj (fields : list (string * value)).

(** ToBoolean. *)
Definition truthy (v : value) : bool :=
  match v with
  | Undefined | Null => false
  | Bool b => b
  | Num n => negb (n =? 0)%Z
  | Str s => negb (String.eqb s "")
  | Arr _ | Obj _ => true
  end.

(** [a || b] *)
Definition or (a b : value) : value := if truthy a then a else b.

Fixpoint lookup_field (k : string) (fs : list (string * value)) : value :=
  match fs with
  | [] => Undefined
  | (k', v) :: rest => if String.eqb k k' then v else lookup_field k rest
  end.

(** [obj.k]: reading a property of [undefined] or [null] is a TypeError
    ([None]); a primitive or an array has no own property of the names
    read by the renderer. *)
Definition get (k : string) (v : value) : option value :=
  match v with
  | Undefined | Null => None
  | Obj fs => Some (lookup_field k fs)
  | Bool _ | Num _ | Str _ | Arr _ => Some Undefined
  end.

(** [obj[k] = v] on the field list: overwrite in place, else append. *)
Fixpoint set_field (k : string) (v : value) (fs : list (string * value))
  : list (string * value) :=
  match fs with
  | [] => [(k, v)]
  | (k', v') :: rest =>
      if String.eqb k k' then (k, v) :: rest else (k', v') :: set_field k v rest
  end.

Definition index_key (i : nat) : string := pretty i.

Fixpoint indexed {A} (f : A -> value) (i : nat) (l : list A)
  : list (string * value) :=
  match l with
  | [] => []
  | x :: rest => (index_key i, f x) :: indexed f (S i) rest
  end.

Definition chars (s : string) : list value :=
  List.map (fun a => Str (String a EmptyString)) (String.list_ascii_of_string s).

(** Own enumerable properties copied by [{...v}]. *)
Definition spread (v : value) : list (string * value) :=
  match v with
  | Obj fs => fs
  | Arr items => indexed id 0 items
  | Str s => indexed id 0 (chars s)
  | Undefined | Null | Bool _ | Num _ => []
  end.

End Js.

(* ===================================================================== *)
(** ** Thrown values *)
(* ===================================================================== *)

(** What a [throw] carries: an [Error] object (name and message) or a
    value that is not an [Error]. *)
Inductive Thrown : Type :=
  | ThrowError (name message : string)
  | ThrowOther (text : string).

(** [error instanceof Error] *)
Definition instanceof_Error (e : Thrown) : bool :=
  match e with ThrowError _ _ => true | ThrowOther _ => false end.

(** [`${error}`]: Error.prototype.toString for an [Error], the text of
    the value otherwise. *)
Definition to_string (e : Thrown) : string :=
  match e with
  | ThrowError name message =>
      if String.eqb name "" then message
      else if String.eqb message "" then name
      else name +:+ ": " +:+ message
  | ThrowOther text => text
  end.

(** [new Error(message)] *)
Definition new_Error (message : string) : Thrown := ThrowError "Error" message.

(* ===================================================================== *)
(** ** Protocol model (agui.models.ts) *)
(* ===================================================================== *)

(** [ComponentType]: a string at run time. *)
Abbreviation ComponentType := string.

Record AGUIComponent : Type := {
  id : string;
  type : ComponentType;
  title : string;
  priority : Z;
  category : string;
  data : Js.value;
  agui_spec : Js.value
}.

Record AGUIMessage : Type := {
  version : string;
  message_type : string;
  session_id : string;
  timestamp : string;
  components : option (list AGUIComponent);
  metadata : Js.value
}.

(* ===================================================================== *)
(** ** Widgets and the host container

    A widget class is described by what Angular observes of it when the
    container instantiates it. A [ComponentRef] is the address of the
    widget instance in the store of live objects: closures installed on a
    widget read that store when they run. *)
(* ===================================================================== *)

Record ComponentClass : Type := {
  class_name : string;
  (** [container.createComponent(cls)] throws *)
  construct_throws : option Thrown;
  (** a fresh instance carries a function in [onDataChange] *)
  declares_onDataChange : bool;
  (** a fresh instance carries a function in [onInteraction] *)
  declares_onInteraction : bool;
  (** the first change detection (ngOnInit on the injected data) throws *)
  detectChanges_throws : Js.value -> option Thrown
}.

(** References are addresses in the store. *)
Abbreviation ComponentRef := nat.

(** The function stored in a hook property of a widget. *)
Inductive Handler : Type :=
  | WidgetHandler                       (* the widget's own function *)
  | RegistryStub                        (* the empty arrow of createComponent *)
  | RendererDataChange (c : AGUIComponent) (instance : ComponentRef)
  | RendererInteraction (c : AGUIComponent).

Record Instance : Type := {
  inst_class : string;
  inst_data : Js.value;
  onDataChange : option Handler;
  onInteraction : option Handler;
  destroyed : bool
}.

(** Live objects and the views mounted in the [ViewContainerRef]. *)
Record Dom : Type := {
  heap : list Instance;
  views : list ComponentRef
}.

Definition update_instance (r : ComponentRef) (f : Instance -> Instance) (d : Dom) : Dom :=
  {| heap := match heap d !! r with
             | Some i => <[r := f i]> (heap d)
             | None => heap d
             end;
     views := views d |}.

Definition set_data (v : Js.value) (i : Instance) : Instance :=
  {| inst_class := inst_class i; inst_data := v;
     onDataChange := onDataChange i; onInteraction := onInteraction i;
     destroyed := destroyed i |}.

Definition set_onDataChange (h : option Handler) (i : Instance) : Instance :=
  {| inst_class := inst_class i; inst_data := inst_data i;
     onDataChange := h; onInteraction := onInteraction i;
     destroyed := destroyed i |}.

Definition set_onInteraction (h : option Handler) (i : Instance) : Instance :=
  {| inst_class := inst_class i; inst_data := inst_data i;
     onDataChange := onDataChange i; onInteraction := h;
     destroyed := destroyed i |}.

Definition set_destroyed (i : Instance) : Instance :=
  {| inst_class := inst_class i; inst_data := inst_data i;
     onDataChange := onDataChange i; onInteraction := onInteraction i;
     destroyed := true |}.

(** [new cls()] as the container sees it. *)
Definition fresh_instance (cls : ComponentClass) : Instance :=
  {| inst_class := class_name cls;
     inst_data := Js.Undefined;
     onDataChange := if declares_onDataChange cls then Some WidgetHandler else None;
     onInteraction := if declares_onInteraction cls then Some WidgetHandler else None;
     destroyed := false |}.

(** [container.createComponent(cls)]: the new view is appended. *)
Definition container_createComponent (cls : ComponentClass) (d : Dom)
  : Thrown + (ComponentRef * Dom) :=
  match construct_throws cls with
  | Some e => inl e
  | None =>
      let r := length (heap d) in
      inr (r, {| heap := heap d ++ [fresh_instance cls]; views := views d ++ [r] |})
  end.

(** [container.clear()]: every mounted view is destroyed and detached. *)
Definition container_clear (d : Dom) : Dom :=
  {| heap := heap (fold_left (fun d r => update_instance r set_destroyed d) (views d) d);
     views := [] |}.

(** [componentRef.destroy()]: the view is destroyed and detached. *)
Definition componentRef_destroy (r : ComponentRef) (d : Dom) : Dom :=
  {| heap := heap (update_instance r set_destroyed d);
     views := List.filter (fun v => negb (Nat.eqb v r)) (views d) |}.

(** [ComponentRef] is an abstract class that declares [destroy()]: the
    member is present on every reference. *)
Definition has_destroy (r : ComponentRef) : bool := true.

(* ===================================================================== *)
(** ** Component registry (component-registry.service.ts) *)
(* ===================================================================== *)

Record ComponentMetadata : Type := {
  componentClass : ComponentClass;
  fallbackType : option ComponentType;
  requiresInteraction : bool;
  meta_category : string;
  displayName : string;
  description : string
}.

(** [Partial<ComponentMetadata>] as passed to [registerComponent]. *)
Record PartialMetadata : Type := {
  given_requiresInteraction : option bool;
  given_category : option string;
  given_displayName : option string;
  given_description : option string;
  given_fallbackType : option ComponentType
}.

Record ComponentCreationResult : Type := {
  componentRef : ComponentRef;
  result_metadata : ComponentMetadata;
  wasOriginalType : bool;
  actualType : ComponentType
}.

Module Registry.

(** [componentRegistry : Map<ComponentType, ComponentMetadata>] *)
Abbreviation t := (gmap string ComponentMetadata).

Definition DEFAULT_FALLBACK : ComponentType := "text_section".

Definition registerComponent (type : ComponentType) (cls : ComponentClass)
    (metadata : PartialMetadata) (reg : t) : t :=
  let fullMetadata :=
    {| componentClass := cls;
       requiresInteraction := default false (given_requiresInteraction metadata);
       meta_category := default "general" (given_category metadata);
       displayName := default type (given_displayName metadata);
       description := default ("Dynamic " +:+ type +:+ " component")
                              (given_description metadata);
       fallbackType := given_fallbackType metadata |} in
  <[type := fullMetadata]> reg.

Definition unregisterComponent (type : ComponentType) (reg : t) : t :=
  delete type reg.


Definition getComponentMetadata (type : ComponentType) (reg : t)
  : option ComponentMetadata := reg !! type.

Definition isComponentRegistered (type : ComponentType) (reg : t) : bool :=
  bool_decide (is_Some (reg !! type)).

(** The literal table of [findFallbackComponent]. *)
Definition fallbackMappings : list (ComponentType * ComponentType) :=
  [ ("data_table", "text_section");
    ("checklist", "text_section");
    ("alert_list", "text_section");
    ("timeline", "text_section");
    ("metrics_grid", "text_section");
    ("progress_bar", "text_section");
    ("decision_log", "text_section");
    ("people_grid", "text_section");
    ("comparison_table", "text_section");
    ("status_cards", "text_section") ].

(** [fallbackMappings[requestedType]], on the keys of the literal. *)
Fixpoint mapping_of (requestedType : ComponentType)
    (table : list (ComponentType * ComponentType)) : option ComponentType :=
  match table with
  | [] => None
  | (k, v) :: rest =>
      if String.eqb requestedType k then Some v else mapping_of requestedType rest
  end.

(** A string is truthy when it is not empty. *)
Definition truthy_type (o : option ComponentType) : bool :=
  match o with
  | Some s => negb (String.eqb s "")
  | None => false
  end.

Definition findFallbackComponent (requestedType : ComponentType) (reg : t)
  : option ComponentMetadata * ComponentType :=
  let fallbackType := mapping_of requestedType fallbackMappings in
  if truthy_type fallbackType then
    let ft := default "" fallbackType in
    (reg !! ft, ft)
  else (None, requestedType).

Definition default_fallback_missing : Thrown :=
  new_Error ("ComponentRegistryService: Default fallback component '"
             +:+ DEFAULT_FALLBACK +:+ "' not registered!").

(** [createComponent(type, container, data)].  The container is the [Dom]
    threaded through; the outcome is the thrown value or the result.  The
    [Dom] returned with a thrown value is the one left behind by the part
    of the [try] block that ran. *)
Definition createComponent (type : ComponentType) (data : Js.value)
    (reg : t) (container : Dom) : Dom * (Thrown + ComponentCreationResult) :=
  (* Try to get the requested component type *)
  let metadata := reg !! type in
  let actualType := type in
  let wasOriginalType := true in
  (* If component type not found, try fallback chain *)
  let '(metadata, actualType, wasOriginalType) :=
    match metadata with
    | Some _ => (metadata, actualType, wasOriginalType)
    | None =>
        let fallbackResult := findFallbackComponent type reg in
        (fst fallbackResult, snd fallbackResult, false)
    end in
  (* If still no component found, use default fallback *)
  let '(metadata, actualType, wasOriginalType) :=
    match metadata with
    | Some _ => (metadata, actualType, wasOriginalType)
    | None => (reg !! DEFAULT_FALLBACK, DEFAULT_FALLBACK, false)
    end in
  match metadata with
  | None => (container, inl default_fallback_missing)
  | Some metadata =>
      match container_createComponent (componentClass metadata) container with
      | inl error => (container, inl error)
      | inr (ref, d) =>
          (* componentRef.instance.data = data *)
          let d := update_instance ref (set_data data) d in
          let d := update_instance ref (fun i =>
                     if bool_decide (is_Some (onDataChange i))
                     then set_onDataChange (Some RegistryStub) i else i) d in
          let d := update_instance ref (fun i =>
                     if bool_decide (is_Some (onInteraction i))
                     then set_onInteraction (Some RegistryStub) i else i) d in
          (* componentRef.changeDetectorRef.detectChanges() *)
          match detectChanges_throws (componentClass metadata) data with
          | Some error => (d, inl error)
          | None =>
              (d, inr {| componentRef := ref;
                         result_metadata := metadata;
                         wasOriginalType := wasOriginalType;
                         actualType := actualType |})
          end
      end
  end.

End Registry.

(* ===================================================================== *)
(** ** Dynamic renderer (dynamic-renderer.component.ts) *)
(* ===================================================================== *)

Record ComponentInteractionEvent : Type := {
  ie_componentId : string;
  ie_componentType : string;
  ie_eventType : Js.value;
  ie_eventData : Js.value;
  ie_timestamp : Z
}.

Record ComponentDataChangeEvent : Type := {
  dc_componentId : string;
  dc_componentType : string;
  dc_oldData : Js.value;
  dc_newData : Js.value;
  dc_timestamp : Z
}.

Record RenderStatistics : Type := {
  totalComponents : nat;
  componentsByType : gmap string nat;
  componentsByCategory : gmap string nat;
  renderTime : Z;
  fallbacksUsed : nat
}.

(** What the four [EventEmitter]s of the renderer deliver to the host. *)
Inductive HostEvent : Type :=
  | componentInteraction (e : ComponentInteractionEvent)
  | componentDataChange (e : ComponentDataChangeEvent)
  | renderComplete (stats : RenderStatistics)
  | renderError (e : Thrown).

(** The fields of the component. *)
Record Renderer : Type := {
  aguiMessage : option AGUIMessage;
  maxComponents : Z;
  createdComponents : list ComponentRef;
  renderStats : RenderStatistics;
  isRendering : bool;
  renderErrorMessage : option string
}.

(** The renderer in its environment: the live objects and the container,
    a clock that never runs backwards (read by [performance.now()] and by
    [new Date()]), and the events emitted so far, oldest first. *)
Record World : Type := {
  dom : Dom;
  renderer : Renderer;
  clock : Z;
  emitted : list HostEvent
}.

Definition with_dom (d : Dom) (w : World) : World :=
  {| dom := d; renderer := renderer w; clock := clock w; emitted := emitted w |}.

Definition with_renderer (r : Renderer) (w : World) : World :=
  {| dom := dom w; renderer := r; clock := clock w; emitted := emitted w |}.

Definition emit (e : HostEvent) (w : World) : World :=
  {| dom := dom w; renderer := renderer w; clock := clock w;
     emitted := emitted w ++ [e] |}.

(** Time passes. *)
Definition advance (dt : N) (w : World) : World :=
  {| dom := dom w; renderer := renderer w; clock := clock w + Z.of_N dt;
     emitted := emitted w |}.

Definition set_aguiMessage (m : option AGUIMessage) (r : Renderer) : Renderer :=
  {| aguiMessage := m; maxComponents := maxComponents r;
     createdComponents := createdComponents r; renderStats := renderStats r;
     isRendering := isRendering r; renderErrorMessage := renderErrorMessage r |}.

Definition set_createdComponents (l : list ComponentRef) (r : Renderer) : Renderer :=
  {| aguiMessage := aguiMessage r; maxComponents := maxComponents r;
     createdComponents := l; renderStats := renderStats r;
     isRendering := isRendering r; renderErrorMessage := renderErrorMessage r |}.

Definition set_renderStats (s : RenderStatistics) (r : Renderer) : Renderer :=
  {| aguiMessage := aguiMessage r; maxComponents := maxComponents r;
     createdComponents := createdComponents r; renderStats := s;
     isRendering := isRendering r; renderErrorMessage := renderErrorMessage r |}.

Definition set_isRendering (b : bool) (r : Renderer) : Renderer :=
  {| aguiMessage := aguiMessage r; maxComponents := maxComponents r;
     createdComponents := createdComponents r; renderStats := renderStats r;
     isRendering := b; renderErrorMessage := renderErrorMessage r |}.

Definition set_renderErrorMessage (m : option string) (r : Renderer) : Renderer :=
  {| aguiMessage := aguiMessage r; maxComponents := maxComponents r;
     createdComponents := createdComponents r; renderStats := renderStats r;
     isRendering := isRendering r; renderErrorMessage := m |}.

Definition initialStats : RenderStatistics :=
  {| totalComponents := 0; componentsByType := ∅; componentsByCategory := ∅;
     renderTime := 0; fallbacksUsed := 0 |}.

(** The component as constructed, inputs at their defaults. *)
Definition initialRenderer : Renderer :=
  {| aguiMessage := None; maxComponents := 50; createdComponents := [];
     renderStats := initialStats; isRendering := false;
     renderErrorMessage := None |}.

Definition initialWorld : World :=
  {| dom := {| heap := []; views := [] |}; renderer := initialRenderer;
     clock := 0; emitted := [] |}.

(** *** Ordering and truncation *)

(** [[...components].sort((a, b) => a.priority - b.priority)].  The
    language fixes the result of [sort] (ascending under the comparator,
    equal elements in their original order), not the algorithm; insertion
    from the right computes it ([stable_sort_unique] below). *)
Fixpoint insert_by_priority (c : AGUIComponent) (l : list AGUIComponent)
  : list AGUIComponent :=
  match l with
  | [] => [c]
  | x :: rest =>
      if (priority c <=? priority x)%Z then c :: x :: rest
      else x :: insert_by_priority c rest
  end.

Definition sort_by_priority (l : list AGUIComponent) : list AGUIComponent :=
  fold_right insert_by_priority [] l.

(** [arr.slice(0, end)] for an integer [end]: a negative [end] counts from
    the end of the array. *)
Definition slice0 {A} (end_ : Z) (l : list A) : list A :=
  let len := Z.of_nat (length l) in
  let final := if (end_ <? 0)%Z then Z.max (len + end_) 0 else Z.min end_ len in
  firstn (Z.to_nat final) l.

Definition sortedComponents (maxComponents : Z) (l : list AGUIComponent)
  : list AGUIComponent :=
  slice0 maxComponents (sort_by_priority l).

(** *** Per-entry steps *)

(** The object literal assigned to [instance.data]. *)
Definition agui_metadata (c : AGUIComponent) : Js.value :=
  Js.Obj [ ("id", Js.Str (id c));
           ("type", Js.Str (type c));
           ("title", Js.Str (title c));
           ("priority", Js.Num (priority c));
           ("category", Js.Str (category c));
           ("spec", agui_spec c) ].

Definition merged_data (c : AGUIComponent) : Js.value :=
  Js.Obj (Js.set_field "_agui" (agui_metadata c) (Js.spread (data c))).

Definition setupComponentMetadata (ref : ComponentRef) (c : AGUIComponent)
    (d : Dom) : Dom :=
  update_instance ref (set_data (merged_data c)) d.

Definition setupComponentEventHandlers (ref : ComponentRef) (c : AGUIComponent)
    (d : Dom) : Dom :=
  let d := update_instance ref (fun i =>
             if bool_decide (is_Some (onDataChange i))
             then set_onDataChange (Some (RendererDataChange c ref)) i else i) d in
  update_instance ref (fun i =>
             if bool_decide (is_Some (onInteraction i))
             then set_onInteraction (Some (RendererInteraction c)) i else i) d.

(** [obj[k] = (obj[k] || 0) + 1] *)
Definition bump (k : string) (m : gmap string nat) : gmap string nat :=
  <[k := default 0 (m !! k) + 1]> m.

Definition updateRenderStats (c : AGUIComponent) (result : ComponentCreationResult)
    (s : RenderStatistics) : RenderStatistics :=
  {| totalComponents := totalComponents s + 1;
     componentsByType := bump (actualType result) (componentsByType s);
     componentsByCategory := bump (category c) (componentsByCategory s);
     renderTime := renderTime s;
     fallbacksUsed := if negb (wasOriginalType result)
                      then fallbacksUsed s + 1 else fallbacksUsed s |}.

Definition render_failure (c : AGUIComponent) (error : Thrown) : Thrown :=
  new_Error ("Failed to render component " +:+ id c +:+ " of type "
             +:+ type c +:+ ": " +:+ to_string error).

(** [renderSingleComponent]: [None] when it returns, [Some e] when it
    throws [e]. *)
Definition renderSingleComponent (reg : Registry.t) (c : AGUIComponent)
    (w : World) : World * option Thrown :=
  match Registry.createComponent (type c) (data c) reg (dom w) with
  | (d, inl error) => (with_dom d w, Some (render_failure c error))
  | (d, inr result) =>
      let ref := componentRef result in
      (* this.createdComponents.push(result.componentRef) *)
      let w := with_renderer
                 (set_createdComponents (createdComponents (renderer w) ++ [ref])
                                        (renderer w)) (with_dom d w) in
      let w := with_dom (setupComponentMetadata ref c (dom w)) w in
      let w := with_dom (setupComponentEventHandlers ref c (dom w)) w in
      let w := with_renderer
                 (set_renderStats (updateRenderStats c result (renderStats (renderer w)))
                                  (renderer w)) w in
      (w, None)
  end.

(** [for (const c of sortedComponents) await renderSingleComponent(c)]:
    the first throw leaves the loop. *)
Fixpoint render_each (reg : Registry.t) (l : list AGUIComponent) (w : World)
  : World * option Thrown :=
  match l with
  | [] => (w, None)
  | c :: rest =>
      match renderSingleComponent reg c w with
      | (w, Some error) => (w, Some error)
      | (w, None) => render_each reg rest w
      end
  end.

(** *** Teardown *)

Definition resetRenderStats (w : World) : World :=
  with_renderer (set_renderStats initialStats (renderer w)) w.

(** The loop over [createdComponents] with its guard
    [componentRef && !componentRef.destroy]. *)
Definition destroy_each (refs : list ComponentRef) (d : Dom) : Dom :=
  fold_left (fun d ref =>
               if negb (has_destroy ref) then componentRef_destroy ref d else d)
            refs d.

(** [dynamicContainer] is a static view query: it is set before the
    first pass, and [container.clear()] always runs. *)
Definition destroyAllComponents (w : World) : World :=
  let d := destroy_each (createdComponents (renderer w)) (dom w) in
  let w := with_renderer (set_createdComponents [] (renderer w)) (with_dom d w) in
  with_dom (container_clear (dom w)) w.

Definition clearComponents (w : World) : World :=
  resetRenderStats (destroyAllComponents w).

(** *** The render pass *)

(** [this.aguiMessage?.components]: an array, even empty, is truthy. *)
Definition message_components (m : option AGUIMessage) : option (list AGUIComponent) :=
  match m with
  | None => None
  | Some m => components m
  end.

Definition error_message (e : Thrown) : string :=
  match e with
  | ThrowError _ message => message
  | ThrowOther _ => "Unknown rendering error"
  end.

(** [renderComponents()], run to completion.  [dt] is the time that passes
    between the two readings of [performance.now()]. *)
Definition renderComponents (reg : Registry.t) (dt : N) (w : World) : World :=
  match message_components (aguiMessage (renderer w)) with
  | None => clearComponents w
  | Some components =>
      let w := with_renderer (set_isRendering true (renderer w)) w in
      let w := with_renderer (set_renderErrorMessage None (renderer w)) w in
      let startTime := clock w in
      let w := destroyAllComponents w in
      let w := resetRenderStats w in
      let sorted := sortedComponents (maxComponents (renderer w)) components in
      let '(w, thrown) := render_each reg sorted w in
      let w := advance dt w in
      let w :=
        match thrown with
        | None =>
            let endTime := clock w in
            let stats := renderStats (renderer w) in
            let stats :=
              {| totalComponents := totalComponents stats;
                 componentsByType := componentsByType stats;
                 componentsByCategory := componentsByCategory stats;
                 renderTime := endTime - startTime;
                 fallbacksUsed := fallbacksUsed stats |} in
            let w := with_renderer (set_renderStats stats (renderer w)) w in
            emit (renderComplete (renderStats (renderer w))) w
        | Some error =>
            let message := error_message error in
            let w := with_renderer
                       (set_renderErrorMessage (Some message) (renderer w)) w in
            emit (renderError (if instanceof_Error error then error
                               else new_Error message)) w
        end in
      with_renderer (set_isRendering false (renderer w)) w
  end.

(** *** Hooks as the widgets call them *)

Definition not_a_function (what : string) : Thrown :=
  ThrowError "TypeError" (what +:+ " is not a function").

Definition cannot_read (prop : string) : Thrown :=
  ThrowError "TypeError" ("Cannot read properties of undefined (reading '"
                          +:+ prop +:+ "')").

(** Running the function stored in a hook on one argument. *)
Definition run_handler (h : Handler) (arg : Js.value) (w : World) : Thrown + World :=
  match h with
  | WidgetHandler => inr w
  | RegistryStub => inr w
  | RendererDataChange c instance =>
      match heap (dom w) !! instance with
      | None => inl (cannot_read "data")
      | Some i =>
          let event :=
            {| dc_componentId := id c;
               dc_componentType := type c;
               dc_oldData := inst_data i;
               dc_newData := arg;
               dc_timestamp := clock w |} in
          inr (emit (componentDataChange event) w)
      end
  | RendererInteraction c =>
      match Js.get "type" arg with
      | None => inl (cannot_read "type")
      | Some t =>
          let event :=
            {| ie_componentId := id c;
               ie_componentType := type c;
               ie_eventType := Js.or t (Js.Str "interaction");
               ie_eventData := arg;
               ie_timestamp := clock w |} in
          inr (emit (componentInteraction event) w)
      end
  end.

(** [instance.onDataChange(newData)] on the widget behind [ref]. *)
Definition call_onDataChange (ref : ComponentRef) (newData : Js.value) (w : World)
  : Thrown + World :=
  match heap (dom w) !! ref with
  | None => inl (cannot_read "onDataChange")
  | Some i =>
      match onDataChange i with
      | None => inl (not_a_function "instance.onDataChange")
      | Some h => run_handler h newData w
      end
  end.

(** [instance.onInteraction(eventData)] on the widget behind [ref]. *)
Definition call_onInteraction (ref : ComponentRef) (eventData : Js.value) (w : World)
  : Thrown + World :=
  match heap (dom w) !! ref with
  | None => inl (cannot_read "onInteraction")
  | Some i =>
      match onInteraction i with
      | None => inl (not_a_function "instance.onInteraction")
      | Some h => run_handler h eventData w
      end
  end.

(** The renderer's record of the current data of a widget:
    [componentRef.instance.data]. *)
Definition current_data (ref : ComponentRef) (w : World) : option Js.value :=
  inst_data <$> heap (dom w) !! ref.

(** *** Remaining public members *)

Definition hasComponents (w : World) : bool :=
  negb (Nat.eqb (length (createdComponents (renderer w))) 0).

Definition agui_id_of (v : Js.value) : Js.value :=
  match Js.get "_agui" v with
  | None | Some Js.Undefined | Some Js.Null => Js.Undefined
  | Some a => default Js.Undefined (Js.get "id" a)
  end.



Definition ngOnInit (reg : Registry.t) (dt : N) (w : World) : World :=
  match aguiMessage (renderer w) with
  | Some _ => renderComponents reg dt w
  | None => w
  end.

Definition ngOnDestroy (w : World) : World := destroyAllComponents w.

(** The host binds a new message; [ngOnChanges] renders it. *)
Definition ngOnChanges (reg : Registry.t) (dt : N) (m : option AGUIMessage)
    (w : World) : World :=
  renderComponents reg dt (with_renderer (set_aguiMessage m (renderer w)) w).

Definition retryRender (reg : Registry.t) (dt : N) (w : World) : World :=
  match aguiMessage (renderer w) with
  | Some _ => renderComponents reg dt w
  | None => w
  end.

(* ===================================================================== *)
(** ** Message validation ([AguiService]) *)
(* ===================================================================== *)

Module AguiService.

Definition SUPPORTED_VERSION : string := "1.0".

Definition validateComponent (c : AGUIComponent) : bool :=
  if String.eqb (id c) "" || String.eqb (type c) "" then false
  else if negb (Js.truthy (data c)) then false
  else true.

Definition validateAguiMessage (message : option AGUIMessage) : bool :=
  match message with
  | None => false
  | Some m =>
      match components m with
      | None => false
      | Some cs =>
          if String.eqb (version m) "" || negb (String.eqb (version m) SUPPORTED_VERSION)
          then false
          else forallb validateComponent cs
      end
  end.

(** [{...message, components: cs}] *)
Definition replace_components (cs : list AGUIComponent) (message : AGUIMessage)
  : AGUIMessage :=
  {| version := version message; message_type := message_type message;
     session_id := session_id message; timestamp := timestamp message;
     components := Some cs; metadata := metadata message |}.

Definition filterByCategory (message : AGUIMessage) (wanted : string) : AGUIMessage :=
  if negb (validateAguiMessage (Some message)) then message
  else
    let filteredComponents :=
      default [] (List.filter (fun c => String.eqb (category c) wanted)
                    <$> components message) in
    replace_components filteredComponents message.

Definition filterByType (message : AGUIMessage) (wanted : string) : AGUIMessage :=
  if negb (validateAguiMessage (Some message)) then message
  else
    let filteredComponents :=
      default [] (List.filter (fun c => String.eqb (type c) wanted)
                    <$> components message) in
    replace_components filteredComponents message.

Definition findComponentById (message : AGUIMessage) (componentId : string)
  : option AGUIComponent :=
  if negb (validateAguiMessage (Some message)) then None
  else
    match components message with
    | Some cs => List.find (fun c => String.eqb (id c) componentId) cs
    | None => None
    end.

(** [arr.findIndex(p)]: [None] stands for [-1]. *)
Fixpoint findIndex {A} (p : A -> bool) (l : list A) : option nat :=
  match l with
  | [] => None
  | x :: rest => if p x then Some 0 else S <$> findIndex p rest
  end.

Definition updateComponent (message : AGUIMessage) (updatedComponent : AGUIComponent)
  : AGUIMessage :=
  if negb (validateAguiMessage (Some message)) then message
  else
    let componentIndex :=
      match components message with
      | Some cs => findIndex (fun c => String.eqb (id c) (id updatedComponent)) cs
      | None => None
      end in
    match componentIndex with
    | None => message
    | Some i =>
        let updatedComponents := default [] (components message) in
        replace_components (<[i := updatedComponent]> updatedComponents) message
    end.

Record MessageStats : Type := {
  componentCount : nat;
  stats_byType : gmap string nat;
  stats_byCategory : gmap string nat
}.

Definition getMessageStats (message : AGUIMessage) : MessageStats :=
  if negb (validateAguiMessage (Some message)) then
    {| componentCount := 0; stats_byType := ∅; stats_byCategory := ∅ |}
  else
    let cs := default [] (components message) in
    {| componentCount := length cs;
       stats_byType := fold_left (fun m c => bump (type c) m) cs ∅;
       stats_byCategory := fold_left (fun m c => bump (category c) m) cs ∅ |}.

End AguiService.

(* ===================================================================== *)
(** ** Predicates used in the statements *)
(* ===================================================================== *)




Definition sum_counts (m : gmap string nat) : nat :=
  map_fold (fun _ n acc => n + acc) 0 m.

(** The statistics agree with the set of managed instances. *)
Definition stats_consistent (w : World) : Prop :=
  let s := renderStats (renderer w) in
  totalComponents s = length (createdComponents (renderer w)) /\
  sum_counts (componentsByType s) = totalComponents s /\
  sum_counts (componentsByCategory s) = totalComponents s.

(** The widget behind [ref] has been destroyed (or never existed). *)
Definition released (d : Dom) (ref : ComponentRef) : Prop :=
  match heap d !! ref with
  | Some i => destroyed i = true
  | None => True
  end.

(** Every managed instance is a view of the container: the renderer
    creates widgets only through [container.createComponent]. *)
Definition managed_in_container (w : World) : Prop :=
  forall ref, ref ∈ createdComponents (renderer w) -> ref ∈ views (dom w).

(** *** The outcome of one entry *)

(** The widget as [createComponent] leaves it. *)
Definition created_instance (cls : ComponentClass) (data : Js.value) : Instance :=
  {| inst_class := class_name cls;
     inst_data := data;
     onDataChange := if declares_onDataChange cls then Some RegistryStub else None;
     onInteraction := if declares_onInteraction cls then Some RegistryStub else None;
     destroyed := false |}.

(** The widget as [renderSingleComponent] leaves it. *)
Definition wired_instance (cls : ComponentClass) (c : AGUIComponent)
    (ref : ComponentRef) : Instance :=
  {| inst_class := class_name cls;
     inst_data := merged_data c;
     onDataChange := if declares_onDataChange cls
                     then Some (RendererDataChange c ref) else None;
     onInteraction := if declares_onInteraction cls
                      then Some (RendererInteraction c) else None;
     destroyed := false |}.

Definition mount (i : Instance) (d : Dom) : Dom :=
  {| heap := heap d ++ [i]; views := views d ++ [length (heap d)] |}.

(** The world after [renderSingleComponent] has returned for [c]. *)
Definition after_entry (c : AGUIComponent) (result : ComponentCreationResult)
    (w : World) : World :=
  {| dom := mount (wired_instance (componentClass (result_metadata result)) c
                                  (length (heap (dom w)))) (dom w);
     renderer :=
       set_renderStats (updateRenderStats c result (renderStats (renderer w)))
         (set_createdComponents
            (createdComponents (renderer w) ++ [length (heap (dom w))]) (renderer w));
     clock := clock w;
     emitted := emitted w |}.

(** *** The phases of a pass

    [renderComponents] is the composition of what runs before the loop,
    the loop, and what runs after it ([renderComponents_phases]). *)

Definition begin_pass (w : World) : World :=
  let w := with_renderer (set_isRendering true (renderer w)) w in
  let w := with_renderer (set_renderErrorMessage None (renderer w)) w in
  resetRenderStats (destroyAllComponents w).

Definition with_renderTime (t : Z) (s : RenderStatistics) : RenderStatistics :=
  {| totalComponents := totalComponents s;
     componentsByType := componentsByType s;
     componentsByCategory := componentsByCategory s;
     renderTime := t;
     fallbacksUsed := fallbacksUsed s |}.

Definition end_pass (startTime : Z) (dt : N) (r : World * option Thrown) : World :=
  let w := advance dt (fst r) in
  let w :=
    match snd r with
    | None =>
        let w := with_renderer
                   (set_renderStats
                      (with_renderTime (clock w - startTime) (renderStats (renderer w)))
                      (renderer w)) w in
        emit (renderComplete (renderStats (renderer w))) w
    | Some error =>
        let w := with_renderer
                   (set_renderErrorMessage (Some (error_message error)) (renderer w)) w in
        emit (renderError (if instanceof_Error error then error
                           else new_Error (error_message error))) w
    end in
  with_renderer (set_isRendering false (renderer w)) w.

(** *** The pass between its awaits

    [renderComponents] is [async]: it runs in segments that end at an
    [await], and the segments of another call may run in between.  Within
    [renderSingleComponent] the creation runs up to the [await] of its
    result; recording the result is the segment after it. *)

Definition record_entry (c : AGUIComponent) (result : ComponentCreationResult)
    (w : World) : World :=
  let ref := componentRef result in
  let w := with_renderer
             (set_createdComponents (createdComponents (renderer w) ++ [ref])
                                    (renderer w)) w in
  let w := with_dom (setupComponentMetadata ref c (dom w)) w in
  let w := with_dom (setupComponentEventHandlers ref c (dom w)) w in
  with_renderer
    (set_renderStats (updateRenderStats c result (renderStats (renderer w)))
                     (renderer w)) w.

Inductive Segment : Type :=
  | SegBegin
  | SegCreate (reg : Registry.t) (c : AGUIComponent)
  | SegRecord (c : AGUIComponent) (result : ComponentCreationResult)
  | SegEnd (startTime : Z) (dt : N) (thrown : option Thrown)
  | SegClear.

Definition segment (s : Segment) (w : World) : World :=
  match s with
  | SegBegin => begin_pass w
  | SegCreate reg c =>
      with_dom (fst (Registry.createComponent (type c) (data c) reg (dom w))) w
  | SegRecord c result => record_entry c result w
  | SegEnd startTime dt thrown => end_pass startTime dt (w, thrown)
  | SegClear => clearComponents w
  end.

(** The world with another message bound to the input. *)
Definition with_message (m : option AGUIMessage) (w : World) : World :=
  with_renderer (set_aguiMessage m (renderer w)) w.

Definition set_maxComponents (n : Z) (r : Renderer) : Renderer :=
  {| aguiMessage := aguiMessage r; maxComponents := n;
     createdComponents := createdComponents r; renderStats := renderStats r;
     isRendering := isRendering r; renderErrorMessage := renderErrorMessage r |}.

(** The world, the bound message left aside. *)
Definition forget_message (w : World) : World := with_message None w.


Definition with_version (v : string) (m : AGUIMessage) : AGUIMessage :=
  {| version := v; message_type := message_type m;
     session_id := session_id m; timestamp := timestamp m;
     components := components m; metadata := metadata m |}.

(** *** What can happen to a renderer *)

Inductive Op : Type :=
  | BindMessage (m : option AGUIMessage)       (* the host binds [aguiMessage] *)
  | BindMaxComponents (n : Z)                  (* the host binds [maxComponents] *)
  | RenderComponents (reg : Registry.t) (dt : N)
  | ClearComponents
  | WidgetDataChange (ref : ComponentRef) (newData : Js.value)
  | WidgetInteraction (ref : ComponentRef) (eventData : Js.value)
  | WidgetAssignData (ref : ComponentRef) (v : Js.value)   (* [this.data = v] in a widget *)
  | Advance (dt : N).

(** A call that throws leaves the world as it was. *)
Definition settle (w : World) (r : Thrown + World) : World :=
  match r with
  | inr w' => w'
  | inl _ => w
  end.

Definition step (op : Op) (w : World) : World :=
  match op with
  | BindMessage m => with_message m w
  | BindMaxComponents n => with_renderer (set_maxComponents n (renderer w)) w
  | RenderComponents reg dt => renderComponents reg dt w
  | ClearComponents => clearComponents w
  | WidgetDataChange ref newData => settle w (call_onDataChange ref newData w)
  | WidgetInteraction ref eventData => settle w (call_onInteraction ref eventData w)
  | WidgetAssignData ref v => with_dom (update_instance ref (set_data v) (dom w)) w
  | Advance dt => advance dt w
  end.

Definition run (ops : list Op) (w : World) : World :=
  fold_left (fun w op => step op w) ops w.

Definition Reachable (w : World) : Prop :=
  exists ops, run ops initialWorld = w.

(** The widget behind [ref] is live, mounted in the container, and set
    up for entry [c]: its data is the merged payload of [c] and each hook
    it exposes is the renderer's wrapper for [c]. *)
Definition rendered_as (w : World) (ref : ComponentRef) (c : AGUIComponent) : Prop :=
  ref ∈ views (dom w) /\
  exists cls, heap (dom w) !! ref = Some (wired_instance cls c ref).



(* ===================================================================== *)
(** ** Registry administration (component-registry.service.ts) *)
(* ===================================================================== *)

Module RegistryAdmin.



(** The widget classes imported by the service. *)
Record WidgetClasses : Type := {
  TextSectionComponent : ComponentClass;
  ChecklistComponent : ComponentClass;
  AlertListComponent : ComponentClass;
  TimelineComponent : ComponentClass;
  MetricsGridComponent : ComponentClass;
  StatusCardsComponent : ComponentClass
}.

Definition described (cat name text : string) : PartialMetadata :=
  {| given_requiresInteraction := Some true; given_category := Some cat;
     given_displayName := Some name; given_description := Some text;
     given_fallbackType := None |}.

Definition initializeRegistry (k : WidgetClasses) (reg : Registry.t) : Registry.t :=
  let reg := Registry.registerComponent "text_section" (TextSectionComponent k)
    (described "content" "Text Section"
       "Displays formatted text content with optional key points and metadata") reg in
  let reg := Registry.registerComponent "checklist" (ChecklistComponent k)
    (described "action" "Checklist"
       "Interactive task list with checkboxes, progress tracking, and status management") reg in
  let reg := Registry.registerComponent "alert_list" (AlertListComponent k)
    (described "risk" "Alert List"
       "Interactive alerts, risks, and issues with severity levels and status tracking") reg in
  let reg := Registry.registerComponent "timeline" (TimelineComponent k)
    (described "outcome" "Timeline"
       "Chronological view of events, milestones, and deadlines with status tracking") reg in
  let reg := Registry.registerComponent "metrics_grid" (MetricsGridComponent k)
    (described "outcome" "Metrics Grid"
       "Grid of key performance indicators, statistics, and metrics with trend visualization") reg in
  Registry.registerComponent "status_cards" (StatusCardsComponent k)
    (described "overview" "Status Cards"
       "Status overview cards for departments, projects, or features with progress tracking") reg.

(** The service as constructed. *)
Definition constructed (k : WidgetClasses) : Registry.t := initializeRegistry k ∅.

(** The type a request for [type] is created as, when one exists. *)
Definition resolves_to (reg : Registry.t) (type : ComponentType) : option ComponentType :=
  if bool_decide (is_Some (reg !! type)) then Some type
  else if bool_decide (is_Some (reg !! Registry.DEFAULT_FALLBACK))
       then Some Registry.DEFAULT_FALLBACK
       else None.

(** The host instantiates every registered class on every payload. *)
Definition host_accepts (reg : Registry.t) : Prop :=
  forall type m data,
    reg !! type = Some m ->
    construct_throws (componentClass m) = None /\
    detectChanges_throws (componentClass m) data = None.

End RegistryAdmin.

(* ===================================================================== *)
(** ** Lookups of the renderer (dynamic-renderer.component.ts) *)
(* ===================================================================== *)

Definition agui_type_of (v : Js.value) : Js.value :=
  match Js.get "_agui" v with
  | None | Some Js.Undefined | Some Js.Null => Js.Undefined
  | Some a => default Js.Undefined (Js.get "type" a)
  end.

Definition instance_has_type (componentType : string) (w : World) (ref : ComponentRef)
  : bool :=
  match heap (dom w) !! ref with
  | Some i =>
      match agui_type_of (inst_data i) with
      | Js.Str s => String.eqb s componentType
      | _ => false
      end
  | None => false
  end.

Definition getComponentsByType (componentType : string) (w : World)
  : list ComponentRef :=
  List.filter (instance_has_type componentType w) (createdComponents (renderer w)).

(* ===================================================================== *)
(** ** The replace pipe (shared/pipes/replace.pipe.ts) *)
(* ===================================================================== *)

Module ReplacePipe.

(** The rest of [s] after its first [n] characters. *)
Fixpoint skip_chars (n : nat) (s : string) : string :=
  match n, s with
  | O, _ => s
  | S _, EmptyString => EmptyString
  | S k, String _ rest => skip_chars k rest
  end.

(** [s.split(sep)] for a separator that is not empty, scanning from the
    left: at a match the piece read so far is closed and the scan resumes
    after the separator ([skip] counts the characters of it still to pass
    over); otherwise the character joins the piece. *)
Fixpoint split_from (sep : string) (skip : nat) (piece : string) (s : string)
  : list string :=
  match s with
  | EmptyString => [piece]
  | String a rest =>
      match skip with
      | S k => split_from sep k piece rest
      | O =>
          if String.prefix sep s
          then piece :: split_from sep (String.length sep - 1) "" rest
          else split_from sep 0 (piece +:+ String a "") rest
      end
  end.

(** [s.split(sep)]: an empty separator splits into characters. *)
Definition split (sep : string) (s : string) : list string :=
  if String.eqb sep ""
  then List.map (fun a => String a "") (String.list_ascii_of_string s)
  else split_from sep 0 "" s.

(** [pieces.join(sep)] *)
Definition join (sep : string) (pieces : list string) : string :=
  String.concat sep pieces.

(** [transform(value, search, replacement)] *)
Definition transform (value search replacement : string) : string :=
  if String.eqb value "" || String.eqb search "" then value
  else join replacement (split search value).

(** [search] occurs in [s]. *)
Definition occurs (search s : string) : Prop :=
  exists before after, s = before +:+ search +:+ after.

End ReplacePipe.

(* ===================================================================== *)
(** ** Widgets that call their hooks, and the host that listens *)
(* ===================================================================== *)

Module JsText.


(** [{...fields, ...more}]: later keys overwrite earlier ones. *)
Definition assign (fields more : list (string * Js.value)) : list (string * Js.value) :=
  fold_left (fun acc kv => Js.set_field (fst kv) (snd kv) acc) more fields.

End JsText.

(** text-section.component.ts *)
Module TextSection.

(** [emitInteraction(eventType, eventData)]; [now] is the text of
    [new Date().toISOString()]. *)
Definition emitInteraction (ref : ComponentRef) (eventType : string)
    (eventData : Js.value) (now : string) (w : World) : Thrown + World :=
  match heap (dom w) !! ref with
  | None => inl (cannot_read "onInteraction")
  | Some i =>
      match onInteraction i with
      | None => inr w
      | Some h =>
          run_handler h
            (Js.Obj (JsText.assign [("type", Js.Str eventType);
                                    ("timestamp", Js.Str now)]
                                   (Js.spread eventData))) w
      end
  end.


End TextSection.

(** status-cards.component.ts *)
Module StatusCards.

(** [emitInteraction(eventType, eventData)]; the [Date] put in the event
    is given by its time value. *)
Definition emitInteraction (ref : ComponentRef) (eventType : string)
    (eventData : Js.value) (w : World) : Thrown + World :=
  match heap (dom w) !! ref with
  | None => inl (cannot_read "onInteraction")
  | Some i =>
      match onInteraction i with
      | None => inr w
      | Some h =>
          run_handler h
            (Js.Obj [("type", Js.Str eventType);
                     ("data", eventData);
                     ("timestamp", Js.Num (clock w))]) w
      end
  end.


End StatusCards.

(** app.component.ts *)
Module App.




End App.

(* ===================================================================== *)
(** ** Sample widgets, registries and manifests *)
(* ===================================================================== *)

Module Sample.

Definition no_metadata : PartialMetadata :=
  {| given_requiresInteraction := None; given_category := None;
     given_displayName := None; given_description := None;
     given_fallbackType := None |}.

(** A widget like the ones of the application: hooks left undefined. *)
Definition PlainWidget : ComponentClass :=
  {| class_name := "PlainWidget"; construct_throws := None;
     declares_onDataChange := false; declares_onInteraction := false;
     detectChanges_throws := fun _ => None |}.

(** A widget that exposes both hooks. *)
Definition HookedWidget : ComponentClass :=
  {| class_name := "HookedWidget"; construct_throws := None;
     declares_onDataChange := true; declares_onInteraction := true;
     detectChanges_throws := fun _ => None |}.

(** A widget the container cannot instantiate. *)
Definition BrokenWidget : ComponentClass :=
  {| class_name := "BrokenWidget";
     construct_throws := Some (ThrowError "Error" "NG0201: no provider");
     declares_onDataChange := false; declares_onInteraction := false;
     detectChanges_throws := fun _ => None |}.

(** What [registerComponent] stores for ["text_section"]. *)
Definition text_metadata : ComponentMetadata :=
  {| componentClass := HookedWidget; fallbackType := None;
     requiresInteraction := false; meta_category := "general";
     displayName := "text_section";
     description := "Dynamic text_section component" |}.

Definition reg_text : Registry.t :=
  Registry.registerComponent "text_section" HookedWidget no_metadata ∅.

Definition reg_broken : Registry.t :=
  Registry.registerComponent "alert_list" BrokenWidget no_metadata reg_text.

Definition entry (i t : string) (p : Z) (cat : string) (d : Js.value) : AGUIComponent :=
  {| id := i; type := t; title := ""; priority := p; category := cat;
     data := d; agui_spec := Js.Obj [("version", Js.Str "1.0")] |}.

Definition c1 : AGUIComponent :=
  entry "c1" "checklist" 2 "action" (Js.Obj [("items", Js.Arr [])]).
Definition c2 : AGUIComponent :=
  entry "c2" "text_section" 1 "content" (Js.Obj [("content", Js.Str "hello")]).
Definition c3 : AGUIComponent :=
  entry "c3" "alert_list" 3 "risk" (Js.Obj [("alerts", Js.Arr [])]).
Definition c4 : AGUIComponent :=
  entry "c4" "text_section" 4 "content" (Js.Obj [("content", Js.Str "bye")]).

Definition manifest (v : string) (cs : option (list AGUIComponent)) : AGUIMessage :=
  {| version := v; message_type := "component_render"; session_id := "s";
     timestamp := "2024-01-01T00:00:00Z"; components := cs;
     metadata := Js.Undefined |}.

Definition world_with (m : option AGUIMessage) : World :=
  with_renderer (set_aguiMessage m initialRenderer) initialWorld.

Definition click : Js.value :=
  Js.Obj [("type", Js.Str "click"); ("payload", Js.Num 7)].

(** Worlds about to render. *)
Definition one : World := world_with (Some (manifest "1.0" (Some [c2]))).
Definition pair : World := world_with (Some (manifest "1.0" (Some [c1; c2]))).
Definition four : World := world_with (Some (manifest "1.0" (Some [c1; c2; c3; c4]))).
Definition empty_list : World := world_with (Some (manifest "1.0" (Some []))).
Definition other_version : World := world_with (Some (manifest "2.0" (Some [c2]))).

(** The widget of [c2] as the pass over [one] or [pair] leaves it. *)
Definition widget_c2 : Instance := wired_instance HookedWidget c2 0.



End Sample.

(* ===================================================================== *)
(** ** Ordering: the sort is the stable ascending sort *)
(* ===================================================================== *)

Section Ordering.

Implicit Types (c : AGUIComponent) (l : list AGUIComponent).

Lemma insert_by_priority_perm c l :
  Permutation (insert_by_priority c l) (c :: l).
Proof.
  induction l as [|x l IH]; simpl; [reflexivity|].
  destruct (priority c <=? priority x)%Z; [reflexivity|].
  rewrite IH. apply perm_swap.
Qed.

Lemma sort_by_priority_perm l : Permutation (sort_by_priority l) l.
Proof.
  induction l as [|c l IH]; simpl; [constructor|].
  rewrite insert_by_priority_perm. by constructor.
Qed.














End Ordering.

(* ===================================================================== *)
(** ** Type resolution in the registry *)
(* ===================================================================== *)

Section Resolution.

Import Registry.

Implicit Types (reg : Registry.t) (d : Dom).

(** Every row of the table points at the foundation type. *)
Lemma mapping_of_target X Y :
  mapping_of X fallbackMappings = Some Y -> Y = "text_section".
Proof.
  unfold fallbackMappings. simpl.
  repeat (destruct (String.eqb X _); [congruence|]). discriminate.
Qed.

Lemma findFallbackComponent_mapped reg X Y :
  mapping_of X fallbackMappings = Some Y ->
  findFallbackComponent X reg = (reg !! Y, Y).
Proof.
  intros HY. unfold findFallbackComponent. rewrite HY.
  apply mapping_of_target in HY as ->. reflexivity.
Qed.

Lemma findFallbackComponent_unmapped reg X :
  mapping_of X fallbackMappings = None ->
  findFallbackComponent X reg = (None, X).
Proof. intros HX. unfold findFallbackComponent. rewrite HX. reflexivity. Qed.

(** The instantiation part of [createComponent], once the metadata is
    settled. *)
Lemma createComponent_resolved reg X data d m T b :
  (let metadata := reg !! X in
   let '(metadata, actualType, wasOriginalType) :=
     match metadata with
     | Some _ => (metadata, X, true)
     | None => (fst (findFallbackComponent X reg),
                snd (findFallbackComponent X reg), false)
     end in
   match metadata with
   | Some _ => (metadata, actualType, wasOriginalType)
   | None => (reg !! DEFAULT_FALLBACK, DEFAULT_FALLBACK, false)
   end) = (Some m, T, b) ->
  match createComponent X data reg d with
  | (_, inr result) =>
      actualType result = T /\ wasOriginalType result = b /\
      result_metadata result = m /\
      construct_throws (componentClass m) = None /\
      detectChanges_throws (componentClass m) data = None
  | (d', inl e) =>
      (construct_throws (componentClass m) = Some e /\ d' = d) \/
      (construct_throws (componentClass m) = None /\
       detectChanges_throws (componentClass m) data = Some e)
  end.
Proof.
  intros Hres. unfold createComponent. cbv zeta in Hres.
  destruct (reg !! X) as [mX|] eqn:EX.
  - injection Hres as <- <- <-.
    unfold container_createComponent.
    destruct (construct_throws (componentClass mX)) as [e|]; [by left|].
    destruct (detectChanges_throws (componentClass mX) data) as [e|];
      [by right|]. simpl. done.
  - destruct (findFallbackComponent X reg) as [[mF|] TF] eqn:EF; simpl in Hres |- *.
    + injection Hres as <- <- <-.
      unfold container_createComponent.
      destruct (construct_throws (componentClass mF)) as [e|]; [by left|].
      destruct (detectChanges_throws (componentClass mF) data) as [e|];
        [by right|]. simpl. done.
    + destruct (reg !! DEFAULT_FALLBACK) as [mD|] eqn:ED; [|discriminate].
      injection Hres as <- <- <-.
      unfold container_createComponent.
      destruct (construct_throws (componentClass mD)) as [e|]; [by left|].
      destruct (detectChanges_throws (componentClass mD) data) as [e|];
        [by right|]. simpl. done.
Qed.

(** C2: an unregistered type [X] with a static fallback mapping [X -> Y],
    [Y] registered, is created as [Y]: the result of [createComponent] has
    [actualType = Y], [wasOriginalType = false] and the metadata of [Y],
    and recording it with [updateRenderStats] raises [fallbacksUsed] by
    exactly one.  [createComponent] throws only what the host throws when
    it instantiates the class of [Y], and returns whenever the host
    accepts that class. *)
Theorem createComponent_static_fallback reg X Y mY data d c stats :
  reg !! X = None ->
  mapping_of X fallbackMappings = Some Y ->
  reg !! Y = Some mY ->
  match createComponent X data reg d with
  | (_, inr result) =>
      actualType result = Y /\ wasOriginalType result = false /\
      result_metadata result = mY /\
      fallbacksUsed (updateRenderStats c result stats) = fallbacksUsed stats + 1
  | (_, inl e) =>
      construct_throws (componentClass mY) = Some e \/
      detectChanges_throws (componentClass mY) data = Some e
  end /\
  (construct_throws (componentClass mY) = None ->
   detectChanges_throws (componentClass mY) data = None ->
   exists d' result, createComponent X data reg d = (d', inr result)).
Proof.
  intros HX HXY HY.
  pose proof (createComponent_resolved reg X data d mY Y false) as H.
  cbv zeta in H. rewrite HX, (findFallbackComponent_mapped reg X Y HXY) in H.
  simpl in H. rewrite HY in H. specialize (H eq_refl).
  destruct (createComponent X data reg d) as [d' [e|result]].
  - split.
    + destruct H as [[H _]|[_ H]]; [by left|by right].
    + intros Hc Hd. destruct H as [[H _]|[_ H]]; congruence.
  - destruct H as (HT & Hw & Hm & _). split; [|by eauto].
    repeat split; try assumption.
    unfold updateRenderStats. simpl. rewrite Hw. reflexivity.
Qed.

(** A run of C2 on the sample registry: ["checklist"] is not registered
    and falls back to ["text_section"]. *)
Lemma createComponent_static_fallback_witness :
  match createComponent "checklist" (data Sample.c1) Sample.reg_text (dom initialWorld) with
  | (_, inr result) =>
      actualType result = "text_section" /\ wasOriginalType result = false /\
      result_metadata result = Sample.text_metadata /\
      fallbacksUsed (updateRenderStats Sample.c1 result initialStats) =
        fallbacksUsed initialStats + 1
  | (_, inl e) =>
      construct_throws (componentClass Sample.text_metadata) = Some e \/
      detectChanges_throws (componentClass Sample.text_metadata) (data Sample.c1) = Some e
  end /\
  (construct_throws (componentClass Sample.text_metadata) = None ->
   detectChanges_throws (componentClass Sample.text_metadata) (data Sample.c1) = None ->
   exists d' result,
     createComponent "checklist" (data Sample.c1) Sample.reg_text (dom initialWorld)
     = (d', inr result)).
Proof.
  apply (createComponent_static_fallback Sample.reg_text "checklist" "text_section"
           Sample.text_metadata (data Sample.c1) (dom initialWorld) Sample.c1 initialStats);
    vm_compute; reflexivity.
Defined.

(** C9: a type that is not registered, has no static fallback mapping,
    while the default fallback ['text_section'] is not registered either,
    makes [createComponent] throw the configuration error; the container
    is left as it was, nothing having been instantiated. *)
Theorem createComponent_no_default reg X data d :
  reg !! X = None ->
  mapping_of X fallbackMappings = None ->
  reg !! DEFAULT_FALLBACK = None ->
  createComponent X data reg d =
    (d, inl (new_Error "ComponentRegistryService: Default fallback component 'text_section' not registered!")).
Proof.
  intros HX HM HD. unfold createComponent.
  rewrite HX, (findFallbackComponent_unmapped reg X HM). simpl.
  rewrite HD. reflexivity.
Qed.

Lemma createComponent_no_default_witness :
  createComponent "unknown_x" Js.Null (∅ : Registry.t) (dom initialWorld) =
    (dom initialWorld,
     inl (new_Error "ComponentRegistryService: Default fallback component 'text_section' not registered!")).
Proof.
  apply (createComponent_no_default ∅ "unknown_x" Js.Null (dom initialWorld));
    vm_compute; reflexivity.
Defined.

End Resolution.

(* ===================================================================== *)
(** ** The container and the store of live objects *)
(* ===================================================================== *)

Section Container.

Implicit Types (d : Dom) (ref : ComponentRef).

Lemma update_instance_views ref f d : views (update_instance ref f d) = views d.
Proof. reflexivity. Qed.

Lemma update_instance_length ref f d :
  length (heap (update_instance ref f d)) = length (heap d).
Proof.
  unfold update_instance. simpl.
  destruct (heap d !! ref); [apply length_insert|reflexivity].
Qed.

Lemma update_instance_lookup ref f d r :
  heap (update_instance ref f d) !! r =
  if decide (ref = r) then f <$> heap d !! r else heap d !! r.
Proof.
  unfold update_instance. simpl. case_decide as E.
  - subst r. destruct (heap d !! ref) as [i|] eqn:Hi; simpl.
    + apply list_lookup_insert_eq. by eapply lookup_lt_Some.
    + exact Hi.
  - destruct (heap d !! ref); [by apply list_lookup_insert_ne|reflexivity].
Qed.

(** Updating the object that was allocated last. *)
Lemma update_instance_last (h : list Instance) v f i :
  update_instance (length h) f {| heap := h ++ [i]; views := v |}
  = {| heap := h ++ [f i]; views := v |}.
Proof.
  unfold update_instance. simpl.
  rewrite lookup_app_r, Nat.sub_diag by lia. simpl.
  rewrite insert_app_r_alt, Nat.sub_diag by lia. reflexivity.
Qed.

Lemma released_update ref d r :
  released d r -> released (update_instance ref set_destroyed d) r.
Proof.
  unfold released. rewrite update_instance_lookup.
  case_decide; [|done]. destruct (heap d !! r); simpl; done.
Qed.

Lemma released_update_self ref d : released (update_instance ref set_destroyed d) ref.
Proof.
  unfold released. rewrite update_instance_lookup, decide_True by reflexivity.
  destruct (heap d !! ref); simpl; done.
Qed.

Lemma destroy_views_released (vs : list ComponentRef) d r :
  released d r \/ r ∈ vs ->
  released (fold_left (fun d r => update_instance r set_destroyed d) vs d) r.
Proof.
  revert d. induction vs as [|v vs IH]; intros d [H|H]; simpl.
  - exact H.
  - by apply elem_of_nil in H.
  - apply IH. left. by apply released_update.
  - apply IH. apply elem_of_cons in H as [->|H]; [left|by right].
    apply released_update_self.
Qed.

Lemma destroy_views_length (vs : list ComponentRef) d :
  length (heap (fold_left (fun d r => update_instance r set_destroyed d) vs d))
  = length (heap d).
Proof.
  revert d. induction vs as [|v vs IH]; intros d; simpl; [reflexivity|].
  rewrite IH. apply update_instance_length.
Qed.

(** [container.clear()] destroys every mounted view and leaves none. *)
Lemma container_clear_spec d :
  views (container_clear d) = [] /\
  length (heap (container_clear d)) = length (heap d) /\
  forall r, r ∈ views d -> released (container_clear d) r.
Proof.
  split; [reflexivity|]. split; [apply destroy_views_length|].
  intros r Hr. unfold released, container_clear. simpl.
  apply (destroy_views_released (views d) d r). by right.
Qed.

Lemma container_clear_empty d : views d = [] -> container_clear d = d.
Proof. destruct d as [h v]. simpl. intros ->. reflexivity. Qed.

(** The guard of the loop in [destroyAllComponents] never holds: the loop
    destroys nothing. *)
Lemma destroy_each_id refs d : destroy_each refs d = d.
Proof.
  unfold destroy_each. revert d.
  induction refs as [|r refs IH]; intros d; simpl; [reflexivity|apply IH].
Qed.

End Container.

(* ===================================================================== *)
(** ** One entry *)
(* ===================================================================== *)

Section SingleEntry.

Implicit Types (reg : Registry.t) (d : Dom) (w : World) (c : AGUIComponent).

(** What [createComponent] does to the container: it throws before
    instantiating and leaves it untouched, or it mounts exactly one new
    widget, at the next free address. *)
Lemma createComponent_dom reg X data d :
  match Registry.createComponent X data reg d with
  | (d', inr result) =>
      componentRef result = length (heap d) /\
      d' = mount (created_instance (componentClass (result_metadata result)) data) d
  | (d', inl e) =>
      d' = d \/ exists cls, d' = mount (created_instance cls data) d
  end.
Proof.
  assert (forall m T b,
    match
      match container_createComponent (componentClass m) d with
      | inl error => (d, inl error)
      | inr (ref, d0) =>
          let d1 := update_instance ref (set_data data) d0 in
          let d2 := update_instance ref (fun i =>
                      if bool_decide (is_Some (onDataChange i))
                      then set_onDataChange (Some RegistryStub) i else i) d1 in
          let d3 := update_instance ref (fun i =>
                      if bool_decide (is_Some (onInteraction i))
                      then set_onInteraction (Some RegistryStub) i else i) d2 in
          match detectChanges_throws (componentClass m) data with
          | Some error => (d3, inl error)
          | None => (d3, inr {| componentRef := ref; result_metadata := m;
                                wasOriginalType := b; actualType := T |})
          end
      end
    with
    | (d', inr result) =>
        componentRef result = length (heap d) /\
        d' = mount (created_instance (componentClass (result_metadata result)) data) d
    | (d', inl e) =>
        d' = d \/ exists cls, d' = mount (created_instance cls data) d
    end) as Htail.
  { intros m T b. unfold container_createComponent.
    destruct (construct_throws (componentClass m)); [by left|].
    cbv zeta. rewrite !update_instance_last.
    assert ({| heap := heap d ++
                 [(fun i => if bool_decide (is_Some (onInteraction i))
                            then set_onInteraction (Some RegistryStub) i else i)
                    ((fun i => if bool_decide (is_Some (onDataChange i))
                               then set_onDataChange (Some RegistryStub) i else i)
                       (set_data data (fresh_instance (componentClass m))))];
               views := views d ++ [length (heap d)] |}
            = mount (created_instance (componentClass m) data) d) as ->.
    { unfold mount, created_instance, fresh_instance. simpl.
      destruct (declares_onDataChange (componentClass m)),
               (declares_onInteraction (componentClass m)); reflexivity. }
    destruct (detectChanges_throws (componentClass m) data).
    - right. by eexists.
    - simpl. done. }
  unfold Registry.createComponent.
  destruct (reg !! X) as [m|]; [apply Htail|].
  destruct (Registry.findFallbackComponent X reg) as [[m|] T]; simpl; [apply Htail|].
  destruct (reg !! Registry.DEFAULT_FALLBACK) as [m|]; [apply Htail|by left].
Qed.

Lemma wire_created cls c (h : list Instance) v :
  setupComponentEventHandlers (length h) c
    (setupComponentMetadata (length h) c
       {| heap := h ++ [created_instance cls (data c)]; views := v |})
  = {| heap := h ++ [wired_instance cls c (length h)]; views := v |}.
Proof.
  unfold setupComponentEventHandlers, setupComponentMetadata.
  rewrite !update_instance_last. f_equal. f_equal.
  unfold created_instance, wired_instance, set_data. simpl.
  destruct (declares_onDataChange cls), (declares_onInteraction cls); reflexivity.
Qed.

Lemma renderSingleComponent_spec reg c w :
  match Registry.createComponent (type c) (data c) reg (dom w) with
  | (d, inl cause) =>
      renderSingleComponent reg c w = (with_dom d w, Some (render_failure c cause)) /\
      (d = dom w \/ exists cls, d = mount (created_instance cls (data c)) (dom w))
  | (_, inr result) =>
      renderSingleComponent reg c w = (after_entry c result w, None)
  end.
Proof.
  unfold renderSingleComponent.
  pose proof (createComponent_dom reg (type c) (data c) (dom w)) as H.
  destruct (Registry.createComponent (type c) (data c) reg (dom w)) as [d [e|res]].
  - split; [reflexivity|exact H].
  - destruct H as [Href ->]. f_equal. unfold after_entry. cbn.
    rewrite Href. unfold mount. rewrite wire_created. reflexivity.
Qed.

Lemma renderSingleComponent_ok reg c w w' :
  renderSingleComponent reg c w = (w', None) ->
  exists d result,
    Registry.createComponent (type c) (data c) reg (dom w) = (d, inr result) /\
    w' = after_entry c result w.
Proof.
  intros H. pose proof (renderSingleComponent_spec reg c w) as S.
  destruct (Registry.createComponent (type c) (data c) reg (dom w)) as [d [e|res]].
  - destruct S as [S _]. congruence.
  - exists d, res. split; [reflexivity|congruence].
Qed.

Lemma renderSingleComponent_fail reg c w w' e :
  renderSingleComponent reg c w = (w', Some e) ->
  exists d cause,
    Registry.createComponent (type c) (data c) reg (dom w) = (d, inl cause) /\
    w' = with_dom d w /\ e = render_failure c cause /\
    (d = dom w \/ exists cls, d = mount (created_instance cls (data c)) (dom w)).
Proof.
  intros H. pose proof (renderSingleComponent_spec reg c w) as S.
  destruct (Registry.createComponent (type c) (data c) reg (dom w)) as [d [cause|res]].
  - destruct S as [S Hd]. exists d, cause. rewrite S in H.
    injection H as <- <-. done.
  - congruence.
Qed.

End SingleEntry.

(* ===================================================================== *)
(** ** The loop over the sorted entries *)
(* ===================================================================== *)

Section Loop.

Implicit Types (reg : Registry.t) (w : World) (l : list AGUIComponent).

(** A failing loop is a succeeding loop over the entries before the
    failing one, followed by the failing call. *)
Lemma render_each_fail_split reg l w w' e :
  render_each reg l w = (w', Some e) ->
  exists pre c post w1,
    l = pre ++ c :: post /\
    render_each reg pre w = (w1, None) /\
    renderSingleComponent reg c w1 = (w', Some e).
Proof.
  revert w. induction l as [|c l IH]; intros w H; simpl in H; [discriminate|].
  destruct (renderSingleComponent reg c w) as [w1 [e1|]] eqn:E.
  - injection H as <- <-. exists [], c, l, w. done.
  - destruct (IH _ H) as (pre & c' & post & w2 & -> & Hpre & Hc).
    exists (c :: pre), c', post, w2. simpl. rewrite E. done.
Qed.

Lemma render_each_fail_join reg pre c post w w1 w' e :
  render_each reg pre w = (w1, None) ->
  renderSingleComponent reg c w1 = (w', Some e) ->
  render_each reg (pre ++ c :: post) w = (w', Some e).
Proof.
  revert w. induction pre as [|x pre IH]; intros w Hpre Hc; simpl in *.
  - injection Hpre as ->. rewrite Hc. reflexivity.
  - destruct (renderSingleComponent reg x w) as [w2 [e2|]]; [discriminate|].
    by apply IH.
Qed.

Lemma rendered_as_after_entry c result w :
  rendered_as (after_entry c result w) (length (heap (dom w))) c.
Proof.
  unfold rendered_as, after_entry, mount. simpl. split.
  - apply elem_of_app. right. left.
  - eexists. rewrite lookup_app_r, Nat.sub_diag by lia. reflexivity.
Qed.

(** Widgets set up earlier are not touched by what is mounted later. *)
Lemma rendered_as_mono w w' ref c hext vext :
  heap (dom w') = heap (dom w) ++ hext ->
  views (dom w') = views (dom w) ++ vext ->
  rendered_as w ref c -> rendered_as w' ref c.
Proof.
  intros Hh Hv [Hin [cls Hi]]. split.
  - rewrite Hv. apply elem_of_app. by left.
  - exists cls. rewrite Hh. rewrite lookup_app_l; [exact Hi|].
    by eapply lookup_lt_Some.
Qed.

(** The loop that returns: one widget per entry, in order, at the next
    free addresses; nothing else changes. *)
Lemma render_each_ok reg l w w' :
  render_each reg l w = (w', None) ->
  let h0 := length (heap (dom w)) in
  (exists hext, heap (dom w') = heap (dom w) ++ hext /\ length hext = length l) /\
  views (dom w') = views (dom w) ++ seq h0 (length l) /\
  createdComponents (renderer w') =
    createdComponents (renderer w) ++ seq h0 (length l) /\
  clock w' = clock w /\ emitted w' = emitted w /\
  aguiMessage (renderer w') = aguiMessage (renderer w) /\
  maxComponents (renderer w') = maxComponents (renderer w) /\
  isRendering (renderer w') = isRendering (renderer w) /\
  renderErrorMessage (renderer w') = renderErrorMessage (renderer w) /\
  totalComponents (renderStats (renderer w')) =
    totalComponents (renderStats (renderer w)) + length l /\
  (forall k c, l !! k = Some c -> rendered_as w' (h0 + k) c).
Proof.
  revert w. induction l as [|c l IH]; intros w H; simpl in H.
  - injection H as <-. simpl. rewrite !app_nil_r, Nat.add_0_r.
    split_and!; try reflexivity.
    + exists []. by rewrite app_nil_r.
    + intros k c Hk. by rewrite lookup_nil in Hk.
  - destruct (renderSingleComponent reg c w) as [w1 [e1|]] eqn:E; [discriminate|].
    apply renderSingleComponent_ok in E as (d & res & _ & ->).
    specialize (IH _ H). cbv zeta in IH.
    destruct IH as ((hext & Hh & Hlen) & Hv & Hc & Hclk & Hem & Hm & Hmax & Hr &
                    Herr & Htot & Hall).
    simpl in Hh, Hv, Hc, Hclk, Hem, Hm, Hmax, Hr, Herr, Htot, Hall.
    rewrite length_app in Hv, Hc, Hall. simpl in Hv, Hc, Hall.
    rewrite Nat.add_1_r in Hv, Hc, Hall.
    cbv zeta. simpl.
    split_and!; try assumption.
    + eexists. rewrite Hh, <- app_assoc. split; [reflexivity|].
      simpl. by rewrite Hlen.
    + rewrite Hv, <- app_assoc. reflexivity.
    + rewrite Hc, <- app_assoc. reflexivity.
    + rewrite Htot. lia.
    + intros [|j] c' Hk; simpl in Hk.
      * injection Hk as <-. rewrite Nat.add_0_r.
        eapply (rendered_as_mono (after_entry c res w) w').
        -- simpl. exact Hh.
        -- simpl. exact Hv.
        -- apply rendered_as_after_entry.
      * replace (length (heap (dom w)) + S j) with (S (length (heap (dom w))) + j) by lia.
        by apply Hall.
Qed.

End Loop.

(* ===================================================================== *)
(** ** Teardown *)
(* ===================================================================== *)

Section Teardown.

Implicit Types (w : World).

Lemma destroyAllComponents_eq w :
  destroyAllComponents w =
  {| dom := container_clear (dom w);
     renderer := set_createdComponents [] (renderer w);
     clock := clock w; emitted := emitted w |}.
Proof.
  unfold destroyAllComponents. rewrite destroy_each_id.
  destruct w as [d r k e]. reflexivity.
Qed.

Lemma destroyAllComponents_noop w :
  createdComponents (renderer w) = [] -> views (dom w) = [] ->
  destroyAllComponents w = w.
Proof.
  intros Hc Hv. rewrite destroyAllComponents_eq.
  rewrite container_clear_empty by assumption.
  destruct w as [d [m n cs s b msg] k e]. simpl in *. subst cs. reflexivity.
Qed.

(** C7: cleanup releases every managed widget instance and empties the
    host container; zero managed instances remain after it; a second call
    in a row changes nothing; with no instance and an empty container it
    changes nothing either.  The widgets are released by
    [container.clear()]: the loop over [createdComponents] destroys
    nothing, its guard being false for every reference. *)
Theorem destroyAllComponents_idempotent w :
  managed_in_container w ->
  let w1 := destroyAllComponents w in
  (forall ref, ref ∈ createdComponents (renderer w) -> released (dom w1) ref) /\
  views (dom w1) = [] /\
  createdComponents (renderer w1) = [] /\
  hasComponents w1 = false /\
  destroyAllComponents w1 = w1 /\
  clearComponents (clearComponents w) = clearComponents w /\
  (createdComponents (renderer w) = [] -> views (dom w) = [] ->
   destroyAllComponents w = w).
Proof.
  intros Hm. cbv zeta.
  assert (views (dom (destroyAllComponents w)) = []) as Hv
    by (rewrite destroyAllComponents_eq; reflexivity).
  assert (createdComponents (renderer (destroyAllComponents w)) = []) as Hc
    by (rewrite destroyAllComponents_eq; reflexivity).
  split_and!.
  - intros ref Hin. rewrite destroyAllComponents_eq. simpl.
    apply container_clear_spec. by apply Hm.
  - exact Hv.
  - exact Hc.
  - unfold hasComponents. rewrite Hc. reflexivity.
  - by apply destroyAllComponents_noop.
  - unfold clearComponents, resetRenderStats.
    rewrite !destroyAllComponents_eq. simpl. reflexivity.
  - apply destroyAllComponents_noop.
Qed.

End Teardown.

(* ===================================================================== *)
(** ** The render pass *)
(* ===================================================================== *)

Section Pass.

Implicit Types (reg : Registry.t) (w : World) (l : list AGUIComponent).

Lemma renderComponents_phases reg dt w comps :
  message_components (aguiMessage (renderer w)) = Some comps ->
  renderComponents reg dt w =
  end_pass (clock w) dt
    (render_each reg (sortedComponents (maxComponents (renderer w)) comps)
                 (begin_pass w)).
Proof.
  intros H. unfold renderComponents. rewrite H. cbn beta iota zeta.
  unfold begin_pass, end_pass. cbn beta iota zeta.
  change (maxComponents (renderer (resetRenderStats (destroyAllComponents
            (with_renderer (set_renderErrorMessage None
               (renderer (with_renderer (set_isRendering true (renderer w)) w)))
               (with_renderer (set_isRendering true (renderer w)) w))))))
    with (maxComponents (renderer w)).
  destruct (render_each reg _ _) as [w1 [e|]]; reflexivity.
Qed.

Lemma renderComponents_no_components reg dt w :
  message_components (aguiMessage (renderer w)) = None ->
  renderComponents reg dt w = clearComponents w.
Proof. intros H. unfold renderComponents. rewrite H. reflexivity. Qed.

Lemma begin_pass_eq w :
  begin_pass w =
  {| dom := container_clear (dom w);
     renderer := {| aguiMessage := aguiMessage (renderer w);
                    maxComponents := maxComponents (renderer w);
                    createdComponents := [];
                    renderStats := initialStats;
                    isRendering := true;
                    renderErrorMessage := None |};
     clock := clock w; emitted := emitted w |}.
Proof.
  unfold begin_pass, resetRenderStats. cbn zeta.
  rewrite destroyAllComponents_eq. reflexivity.
Qed.

Lemma clearComponents_eq w :
  clearComponents w =
  {| dom := container_clear (dom w);
     renderer := {| aguiMessage := aguiMessage (renderer w);
                    maxComponents := maxComponents (renderer w);
                    createdComponents := [];
                    renderStats := initialStats;
                    isRendering := isRendering (renderer w);
                    renderErrorMessage := renderErrorMessage (renderer w) |};
     clock := clock w; emitted := emitted w |}.
Proof.
  unfold clearComponents, resetRenderStats.
  rewrite destroyAllComponents_eq. reflexivity.
Qed.

Lemma begin_pass_heap_length w :
  length (heap (dom (begin_pass w))) = length (heap (dom w)).
Proof. rewrite begin_pass_eq. apply container_clear_spec. Qed.

Lemma begin_pass_fields w :
  views (dom (begin_pass w)) = [] /\
  createdComponents (renderer (begin_pass w)) = [] /\
  renderStats (renderer (begin_pass w)) = initialStats /\
  clock (begin_pass w) = clock w /\
  emitted (begin_pass w) = emitted w.
Proof. rewrite begin_pass_eq. done. Qed.

(** The whole outcome of a pass that fails at the entry after [pre]. *)
Lemma renderComponents_failed reg dt w comps pre c post w1 d cause :
  message_components (aguiMessage (renderer w)) = Some comps ->
  sortedComponents (maxComponents (renderer w)) comps = pre ++ c :: post ->
  render_each reg pre (begin_pass w) = (w1, None) ->
  Registry.createComponent (type c) (data c) reg (dom w1) = (d, inl cause) ->
  renderComponents reg dt w =
  {| dom := d;
     renderer := set_isRendering false
                   (set_renderErrorMessage
                      (Some (error_message (render_failure c cause))) (renderer w1));
     clock := clock w1 + Z.of_N dt;
     emitted := emitted w1 ++ [renderError (render_failure c cause)] |}.
Proof.
  intros Hm Hs Hpre Hc.
  rewrite (renderComponents_phases reg dt w comps Hm), Hs.
  pose proof (renderSingleComponent_spec reg c w1) as S. rewrite Hc in S.
  destruct S as [S _].
  rewrite (render_each_fail_join reg pre c post _ w1 _ _ Hpre S).
  reflexivity.
Qed.

(** The whole outcome of a pass in which every creation succeeds. *)
Lemma renderComponents_completed reg dt w comps w1 :
  message_components (aguiMessage (renderer w)) = Some comps ->
  render_each reg (sortedComponents (maxComponents (renderer w)) comps)
              (begin_pass w) = (w1, None) ->
  renderComponents reg dt w =
  {| dom := dom w1;
     renderer := set_isRendering false
                   (set_renderStats
                      (with_renderTime (Z.of_N dt) (renderStats (renderer w1)))
                      (renderer w1));
     clock := clock w + Z.of_N dt;
     emitted := emitted w ++
                [renderComplete (with_renderTime (Z.of_N dt) (renderStats (renderer w1)))] |}.
Proof.
  intros Hm Hl. rewrite (renderComponents_phases reg dt w comps Hm), Hl.
  apply render_each_ok in Hl. cbv zeta in Hl.
  destruct Hl as (_ & _ & _ & Hclk & Hem & _).
  rewrite begin_pass_eq in Hclk, Hem. simpl in Hclk, Hem.
  unfold end_pass. simpl. unfold with_renderer, emit, advance. simpl.
  rewrite Hclk, Hem.
  replace (clock w + Z.of_N dt - clock w)%Z with (Z.of_N dt) by lia.
  reflexivity.
Qed.

(** *** The bound message is only read *)

Lemma renderSingleComponent_with_message reg c X w :
  renderSingleComponent reg c (with_message X w) =
  (with_message X (fst (renderSingleComponent reg c w)),
   snd (renderSingleComponent reg c w)).
Proof.
  unfold renderSingleComponent. simpl.
  destruct (Registry.createComponent (type c) (data c) reg (dom w)) as [d [e|res]];
    reflexivity.
Qed.

Lemma render_each_with_message reg l X w :
  render_each reg l (with_message X w) =
  (with_message X (fst (render_each reg l w)), snd (render_each reg l w)).
Proof.
  revert w. induction l as [|c l IH]; intros w; simpl; [reflexivity|].
  rewrite renderSingleComponent_with_message.
  destruct (renderSingleComponent reg c w) as [w1 [e|]]; simpl; [reflexivity|].
  apply IH.
Qed.

Lemma begin_pass_with_message X w :
  begin_pass (with_message X w) = with_message X (begin_pass w).
Proof. rewrite !begin_pass_eq. reflexivity. Qed.

Lemma end_pass_with_message t dt X w1 r :
  end_pass t dt (with_message X w1, r) = with_message X (end_pass t dt (w1, r)).
Proof. unfold end_pass. simpl. destruct r; reflexivity. Qed.

Lemma forget_with_message X w : forget_message (with_message X w) = forget_message w.
Proof. reflexivity. Qed.

(** Two messages whose entries sort and truncate to the same list give
    the same pass. *)
Lemma renderComponents_same_entries reg dt w X Y cx cy :
  message_components X = Some cx -> message_components Y = Some cy ->
  sortedComponents (maxComponents (renderer w)) cx =
  sortedComponents (maxComponents (renderer w)) cy ->
  forget_message (renderComponents reg dt (with_message X w)) =
  forget_message (renderComponents reg dt (with_message Y w)).
Proof.
  intros HX HY Hs.
  rewrite (renderComponents_phases reg dt (with_message X w) cx) by exact HX.
  rewrite (renderComponents_phases reg dt (with_message Y w) cy) by exact HY.
  simpl. rewrite Hs, !begin_pass_with_message, !render_each_with_message.
  rewrite !end_pass_with_message. reflexivity.
Qed.


(** *** What a pass leaves behind *)

(** After a pass over [kept], the managed instances are the widgets of the
    first [n] entries, in order; either all entries were rendered and the
    pass reported completion, or the entry at position [n] failed and the
    pass reported that failure. *)
Lemma renderComponents_outcome reg dt w comps :
  message_components (aguiMessage (renderer w)) = Some comps ->
  let kept := sortedComponents (maxComponents (renderer w)) comps in
  let w' := renderComponents reg dt w in
  let h0 := length (heap (dom w)) in
  exists n,
    n <= length kept /\
    createdComponents (renderer w') = seq h0 n /\
    totalComponents (renderStats (renderer w')) = n /\
    (forall k c, k < n -> kept !! k = Some c -> rendered_as w' (h0 + k) c) /\
    clock w' = (clock w + Z.of_N dt)%Z /\
    ((n = length kept /\
      emitted w' = emitted w ++ [renderComplete (renderStats (renderer w'))]) \/
     (exists c cause,
        kept !! n = Some c /\
        emitted w' = emitted w ++ [renderError (render_failure c cause)])).
Proof.
  intros Hm. cbv zeta.
  destruct (render_each reg (sortedComponents (maxComponents (renderer w)) comps)
              (begin_pass w)) as [w1 [e|]] eqn:E.
  - apply render_each_fail_split in E as (pre & c & post & w0 & Hs & Hpre & Hc).
    apply renderSingleComponent_fail in Hc as (d & cause & Hcr & -> & -> & Hd).
    rewrite (renderComponents_failed reg dt w comps pre c post w0 d cause Hm Hs Hpre Hcr).
    apply render_each_ok in Hpre. cbv zeta in Hpre.
    destruct Hpre as (_ & Hv & Hcs & Hclk & Hem & _ & _ & _ & _ & Htot & Hall).
    rewrite begin_pass_heap_length in Hv, Hcs, Hall.
    destruct (begin_pass_fields w) as (Bv & Bc & Bs & Bk & Be).
    rewrite Bv in Hv. rewrite Bc in Hcs. rewrite Bk in Hclk. rewrite Be in Hem.
    rewrite Bs in Htot. simpl in Hv, Hcs, Htot.
    exists (length pre). rewrite Hs. simpl. split_and!.
    + rewrite length_app. lia.
    + exact Hcs.
    + exact Htot.
    + intros k c' Hk Hl. rewrite lookup_app_l in Hl by exact Hk.
      specialize (Hall k c' Hl).
      destruct Hd as [->|[cls ->]].
      * destruct Hall as [Hin Hi]. split; [exact Hin|exact Hi].
      * eapply (rendered_as_mono w0 _ _ _ [_] [_]); [| |exact Hall]; reflexivity.
    + rewrite Hclk. reflexivity.
    + right. exists c, cause. split.
      * rewrite lookup_app_r, Nat.sub_diag by lia. reflexivity.
      * rewrite Hem. reflexivity.
  - rewrite (renderComponents_completed reg dt w comps w1 Hm E).
    apply render_each_ok in E. cbv zeta in E.
    destruct E as (_ & Hv & Hcs & _ & _ & _ & _ & _ & _ & Htot & Hall).
    rewrite begin_pass_heap_length in Hv, Hcs, Hall.
    destruct (begin_pass_fields w) as (Bv & Bc & Bs & Bk & Be).
    rewrite Bv in Hv. rewrite Bc in Hcs. rewrite Bs in Htot.
    simpl in Hv, Hcs, Htot.
    eexists. simpl. split_and!.
    + reflexivity.
    + exact Hcs.
    + exact Htot.
    + intros k c' _ Hl. destruct (Hall k c' Hl) as [Hin Hi]. split; assumption.
    + reflexivity.
    + left. split; reflexivity.
Qed.

End Pass.

(* ===================================================================== *)
(** ** Batch failure *)
(* ===================================================================== *)

Section BatchFailure.

Implicit Types (reg : Registry.t) (w : World).


End BatchFailure.

(* ===================================================================== *)
(** ** Ordering and truncation of a manifest *)
(* ===================================================================== *)

Section Truncation.

Implicit Types (reg : Registry.t) (w : World).


End Truncation.

(* ===================================================================== *)
(** ** Nothing to render, and the protocol version *)
(* ===================================================================== *)

Section NothingToRender.

Implicit Types (reg : Registry.t) (w : World).

(** C8, as amended: with no message or no entry list the pass is
    [clearComponents]: no instance, every statistics field zero, no
    event.  With an empty entry list the general path runs: no instance,
    every counter zero, [renderTime] the time the pass took, and one
    completion event carrying those statistics.  Neither case emits a
    render error. *)
Theorem renderComponents_nothing_to_render reg dt w :
  message_components (aguiMessage (renderer w)) = None \/
  message_components (aguiMessage (renderer w)) = Some [] ->
  let w' := renderComponents reg dt w in
  let elapsed :=
    match message_components (aguiMessage (renderer w)) with
    | Some _ => Z.of_N dt
    | None => 0%Z
    end in
  createdComponents (renderer w') = [] /\
  views (dom w') = [] /\
  length (heap (dom w')) = length (heap (dom w)) /\
  renderStats (renderer w') = with_renderTime elapsed initialStats /\
  emitted w' = emitted w ++
    match message_components (aguiMessage (renderer w)) with
    | Some _ => [renderComplete (with_renderTime elapsed initialStats)]
    | None => []
    end /\
  (forall e, renderError e ∉ drop (length (emitted w)) (emitted w')).
Proof.
  intros [Hm|Hm]; cbv zeta; rewrite Hm.
  - rewrite (renderComponents_no_components reg dt w Hm), clearComponents_eq.
    simpl. rewrite app_nil_r, drop_all. split_and!; try reflexivity.
    + apply container_clear_spec.
    + intros e He. by apply elem_of_nil in He.
  - rewrite (renderComponents_phases reg dt w [] Hm).
    assert (sortedComponents (maxComponents (renderer w)) [] = []) as ->.
    { unfold sortedComponents, slice0. simpl. apply firstn_nil. }
    cbn [render_each]. rewrite begin_pass_eq. unfold end_pass. simpl.
    replace (clock w + Z.of_N dt - clock w)%Z with (Z.of_N dt) by lia.
    rewrite drop_app_length. split_and!; try reflexivity.
    + apply container_clear_spec.
    + intros e He. apply list_elem_of_singleton in He. discriminate.
Qed.

(** C1, as amended: the renderer does not read the version of a manifest:
    re-labelling a manifest with any version leaves the pass as it was,
    in every field of its outcome.  A version other than the supported
    one is rejected by [AguiService.validateAguiMessage], which the
    renderer does not call. *)
Theorem renderComponents_ignores_version reg dt w m v :
  v <> AguiService.SUPPORTED_VERSION ->
  AguiService.validateAguiMessage (Some (with_version v m)) = false /\
  forget_message (renderComponents reg dt (with_message (Some (with_version v m)) w)) =
  forget_message (renderComponents reg dt (with_message (Some m) w)).
Proof.
  intros Hv. split.
  - unfold AguiService.validateAguiMessage. simpl.
    destruct (components m); [|reflexivity].
    destruct (String.eqb v AguiService.SUPPORTED_VERSION) eqn:E.
    + apply String.eqb_eq in E. contradiction.
    + simpl. by rewrite orb_true_r.
  - destruct (components m) as [cs|] eqn:Hc.
    + apply (renderComponents_same_entries reg dt w _ _ cs cs);
        simpl; try assumption. reflexivity.
    + rewrite !renderComponents_no_components by (simpl; assumption).
      rewrite !clearComponents_eq. reflexivity.
Qed.

End NothingToRender.

(* ===================================================================== *)
(** ** Event bridging *)
(* ===================================================================== *)

Section Bridging.

Implicit Types (reg : Registry.t) (w : World) (ref : ComponentRef).



Lemma run_handler_world h arg w w' :
  run_handler h arg w = inr w' ->
  dom w' = dom w /\ renderer w' = renderer w /\ clock w' = clock w.
Proof.
  destruct h as [| |c r|c]; simpl.
  - intros [= <-]. done.
  - intros [= <-]. done.
  - destruct (heap (dom w) !! r); [|discriminate]. intros [= <-]. done.
  - destruct (Js.get "type" arg); [|discriminate]. intros [= <-]. done.
Qed.

Lemma settle_world w r :
  (forall w', r = inr w' ->
     dom w' = dom w /\ renderer w' = renderer w /\ clock w' = clock w) ->
  dom (settle w r) = dom w /\ renderer (settle w r) = renderer w /\
  clock (settle w r) = clock w.
Proof. destruct r as [e|w']; simpl; [done|]. intros H. by apply H. Qed.

Lemma call_onDataChange_world ref v w :
  let w' := settle w (call_onDataChange ref v w) in
  dom w' = dom w /\ renderer w' = renderer w /\ clock w' = clock w.
Proof.
  apply settle_world. intros w' H. unfold call_onDataChange in H.
  destruct (heap (dom w) !! ref) as [i|]; [|discriminate].
  destruct (onDataChange i) as [h|]; [|discriminate].
  by eapply run_handler_world.
Qed.

Lemma call_onInteraction_world ref v w :
  let w' := settle w (call_onInteraction ref v w) in
  dom w' = dom w /\ renderer w' = renderer w /\ clock w' = clock w.
Proof.
  apply settle_world. intros w' H. unfold call_onInteraction in H.
  destruct (heap (dom w) !! ref) as [i|]; [|discriminate].
  destruct (onInteraction i) as [h|]; [|discriminate].
  by eapply run_handler_world.
Qed.



(** A managed instance after a pass is the widget of one of the entries
    the pass processed. *)
Lemma managed_after_pass reg dt w ref :
  ref ∈ createdComponents (renderer (renderComponents reg dt w)) ->
  exists comps c,
    message_components (aguiMessage (renderer w)) = Some comps /\
    c ∈ sortedComponents (maxComponents (renderer w)) comps /\
    rendered_as (renderComponents reg dt w) ref c /\
    (clock w <= clock (renderComponents reg dt w))%Z.
Proof.
  intros Hin.
  destruct (message_components (aguiMessage (renderer w))) as [comps|] eqn:Hm.
  - destruct (renderComponents_outcome reg dt w comps Hm)
      as (n & Hn & Hcs & _ & Hall & Hclk & _).
    rewrite Hcs in Hin. apply elem_of_seq in Hin as [Hlo Hhi].
    destruct (lookup_lt_is_Some_2
                (sortedComponents (maxComponents (renderer w)) comps)
                (ref - length (heap (dom w)))) as [c Hc]; [lia|].
    exists comps, c. split_and!.
    + reflexivity.
    + by eapply list_elem_of_lookup_2.
    + assert (rendered_as (renderComponents reg dt w)
                (length (heap (dom w)) + (ref - length (heap (dom w)))) c) as R
        by (apply Hall; [lia|exact Hc]).
      replace (length (heap (dom w)) + (ref - length (heap (dom w)))) with ref in R by lia.
      exact R.
    + rewrite Hclk. lia.
  - rewrite (renderComponents_no_components reg dt w Hm), clearComponents_eq in Hin.
    simpl in Hin. by apply elem_of_nil in Hin.
Qed.





End Bridging.

(* ===================================================================== *)
(** ** Statistics *)
(* ===================================================================== *)

Section Statistics.

Implicit Types (reg : Registry.t) (w : World) (m : gmap string nat).

Lemma sum_counts_empty : sum_counts ∅ = 0.
Proof. unfold sum_counts. apply map_fold_empty. Qed.

Lemma sum_counts_insert_fresh m k n :
  m !! k = None -> sum_counts (<[k := n]> m) = n + sum_counts m.
Proof.
  intros Hk. unfold sum_counts.
  apply (map_fold_insert_L (fun _ n acc => n + acc)); [|exact Hk].
  intros. lia.
Qed.

Lemma sum_counts_delete m k n :
  m !! k = Some n -> sum_counts m = n + sum_counts (delete k m).
Proof.
  intros Hk. unfold sum_counts.
  apply (map_fold_delete_L (fun _ n acc => n + acc)); [|exact Hk].
  intros. lia.
Qed.

(** Counting one more under a key adds one to the sum of the counts. *)
Lemma sum_counts_bump m k : sum_counts (bump k m) = sum_counts m + 1.
Proof.
  unfold bump. destruct (m !! k) as [n|] eqn:Hk; simpl.
  - rewrite <- insert_delete_eq.
    rewrite sum_counts_insert_fresh by apply lookup_delete_eq.
    rewrite (sum_counts_delete m k n Hk). lia.
  - rewrite sum_counts_insert_fresh by exact Hk. lia.
Qed.

Lemma after_entry_consistent c result w :
  stats_consistent w -> stats_consistent (after_entry c result w).
Proof.
  intros (Ht & Hy & Hc). unfold stats_consistent, after_entry. simpl.
  rewrite length_app, !sum_counts_bump. simpl. lia.
Qed.

Lemma renderSingleComponent_consistent reg c w :
  stats_consistent w -> stats_consistent (fst (renderSingleComponent reg c w)).
Proof.
  intros H. pose proof (renderSingleComponent_spec reg c w) as S.
  destruct (Registry.createComponent (type c) (data c) reg (dom w)) as [d [e|res]].
  - destruct S as [-> _]. exact H.
  - rewrite S. by apply after_entry_consistent.
Qed.

Lemma render_each_consistent reg l w :
  stats_consistent w -> stats_consistent (fst (render_each reg l w)).
Proof.
  revert w. induction l as [|c l IH]; intros w H; simpl; [exact H|].
  pose proof (renderSingleComponent_consistent reg c w H) as H1.
  destruct (renderSingleComponent reg c w) as [w1 [e|]]; simpl in *; [exact H1|].
  by apply IH.
Qed.

Lemma begin_pass_consistent w : stats_consistent (begin_pass w).
Proof.
  rewrite begin_pass_eq. unfold stats_consistent. simpl.
  rewrite sum_counts_empty. done.
Qed.

Lemma end_pass_consistent t dt r :
  stats_consistent (fst r) -> stats_consistent (end_pass t dt r).
Proof. destruct r as [w [e|]]; intros H; exact H. Qed.

Lemma clearComponents_consistent w : stats_consistent (clearComponents w).
Proof.
  rewrite clearComponents_eq. unfold stats_consistent. simpl.
  rewrite sum_counts_empty. done.
Qed.

Lemma renderComponents_consistent reg dt w :
  stats_consistent (renderComponents reg dt w).
Proof.
  destruct (message_components (aguiMessage (renderer w))) as [comps|] eqn:Hm.
  - rewrite (renderComponents_phases reg dt w comps Hm).
    apply end_pass_consistent, render_each_consistent, begin_pass_consistent.
  - rewrite (renderComponents_no_components reg dt w Hm).
    apply clearComponents_consistent.
Qed.

(** The invariant holds at the start and is kept by every step a renderer
    can take, bindings and widget activity included. *)
Lemma step_consistent op w : stats_consistent w -> stats_consistent (step op w).
Proof.
  intros H. destruct op as [m|n|reg dt| |ref v|ref v|ref v|dt]; simpl.
  - exact H.
  - exact H.
  - apply renderComponents_consistent.
  - apply clearComponents_consistent.
  - destruct (call_onDataChange_world ref v w) as (_ & Hr & _).
    unfold stats_consistent. rewrite Hr. exact H.
  - destruct (call_onInteraction_world ref v w) as (_ & Hr & _).
    unfold stats_consistent. rewrite Hr. exact H.
  - exact H.
  - exact H.
Qed.

Lemma reachable_consistent w : Reachable w -> stats_consistent w.
Proof.
  intros [ops <-].
  assert (forall w0, stats_consistent w0 -> stats_consistent (run ops w0)) as Hrun.
  { induction ops as [|op ops IH]; intros w0 H0; [exact H0|].
    apply IH, step_consistent, H0. }
  apply Hrun. unfold stats_consistent. simpl. rewrite sum_counts_empty. done.
Qed.

(** A returning [renderSingleComponent] is its two segments in a row. *)
Lemma renderSingleComponent_segments reg c w :
  match Registry.createComponent (type c) (data c) reg (dom w) with
  | (_, inr result) =>
      renderSingleComponent reg c w =
      (segment (SegRecord c result) (segment (SegCreate reg c) w), None)
  | (_, inl cause) =>
      renderSingleComponent reg c w =
      (segment (SegCreate reg c) w, Some (render_failure c cause))
  end.
Proof.
  unfold renderSingleComponent, segment, record_entry.
  destruct (Registry.createComponent (type c) (data c) reg (dom w)) as [d [e|res]];
    reflexivity.
Qed.

(** Each segment keeps the invariant: it holds at every [await], however
    the segments of overlapping calls are interleaved. *)
Lemma segment_consistent s w : stats_consistent w -> stats_consistent (segment s w).
Proof.
  intros H. destruct s as [|reg c|c result|t dt thrown|]; simpl.
  - apply begin_pass_consistent.
  - exact H.
  - destruct H as (Ht & Hy & Hc). unfold stats_consistent, record_entry. simpl.
    rewrite length_app, !sum_counts_bump. simpl. lia.
  - by apply (end_pass_consistent t dt (w, thrown)).
  - apply clearComponents_consistent.
Qed.

Lemma segments_consistent (ss : list Segment) w :
  stats_consistent w ->
  stats_consistent (fold_left (fun w s => segment s w) ss w).
Proof.
  revert w. induction ss as [|s ss IH]; intros w H; simpl; [exact H|].
  apply IH, segment_consistent, H.
Qed.


End Statistics.

(* ===================================================================== *)
(** ** Worlds a renderer can reach *)
(* ===================================================================== *)

Section Reachability.

Implicit Types (w : World).

Lemma step_managed op w : managed_in_container w -> managed_in_container (step op w).
Proof.
  intros H. destruct op as [m|n|reg dt| |ref v|ref v|ref v|dt]; simpl.
  - exact H.
  - exact H.
  - intros ref Hin.
    destruct (managed_after_pass reg dt w ref Hin) as (_ & c & _ & _ & [Hv _] & _).
    exact Hv.
  - rewrite clearComponents_eq. intros ref Hin. simpl in Hin.
    by apply elem_of_nil in Hin.
  - destruct (call_onDataChange_world ref v w) as (Hd & Hr & _).
    unfold managed_in_container. rewrite Hd, Hr. exact H.
  - destruct (call_onInteraction_world ref v w) as (Hd & Hr & _).
    unfold managed_in_container. rewrite Hd, Hr. exact H.
  - exact H.
  - exact H.
Qed.

(** Every managed instance of a reachable world is mounted in the
    container. *)
Lemma reachable_managed w : Reachable w -> managed_in_container w.
Proof.
  intros [ops <-].
  assert (forall w0, managed_in_container w0 -> managed_in_container (run ops w0)) as Hrun.
  { induction ops as [|op ops IH]; intros w0 H0; [exact H0|].
    apply IH, step_managed, H0. }
  apply Hrun. intros ref Hin. simpl in Hin. by apply elem_of_nil in Hin.
Qed.

End Reachability.

(* ===================================================================== *)
(** ** Runs on the sample manifests *)
(* ===================================================================== *)

Section Runs.

Import Sample.

(** Priorities 2, 1 are rendered in the order 1, 2; ["checklist"] is not
    registered and is created as ["text_section"]. *)
Example pair_statistics :
  renderStats (renderer (renderComponents reg_text 5 pair)) =
  {| totalComponents := 2;
     componentsByType := {[ "text_section" := 2 ]};
     componentsByCategory := {[ "content" := 1; "action" := 1 ]};
     renderTime := 5;
     fallbacksUsed := 1 |}.
Proof. vm_compute. reflexivity. Qed.

Example pair_creation_order :
  List.map (fun ref => agui_id_of (default Js.Undefined
              (current_data ref (renderComponents reg_text 5 pair))))
           (createdComponents (renderer (renderComponents reg_text 5 pair)))
  = [Js.Str "c2"; Js.Str "c1"].
Proof. vm_compute. reflexivity. Qed.

Example four_sorted :
  sortedComponents 50 [c4; c3; c1; c2] = [c2; c1; c3; c4].
Proof. reflexivity. Qed.

Example slice0_negative : slice0 (-1) [c2; c1; c3] = [c2; c1].
Proof. reflexivity. Qed.

Example four_fails_at_third :
  emitted (renderComponents reg_broken 5 four) =
  [renderError (new_Error
     "Failed to render component c3 of type alert_list: Error: NG0201: no provider")]
  /\ createdComponents (renderer (renderComponents reg_broken 5 four)) = [0; 1].
Proof. vm_compute. split; reflexivity. Qed.

Example click_event :
  call_onInteraction 0 click (advance 2 (renderComponents reg_text 5 one)) =
  inr (emit (componentInteraction
               {| ie_componentId := "c2"; ie_componentType := "text_section";
                  ie_eventType := Js.Str "click"; ie_eventData := click;
                  ie_timestamp := 7 |})
            (advance 2 (renderComponents reg_text 5 one))).
Proof. vm_compute. reflexivity. Qed.

End Runs.

(* ===================================================================== *)
(** ** The statements above on the sample manifests *)
(* ===================================================================== *)

Section Instances.

Import Sample.

(** A manifest of another version is rendered like any other, unlike an
    empty manifest: the statement of C1 fails on the renderer. *)
Lemma other_version_is_rendered :
  version (manifest "2.0" (Some [c2])) <> AguiService.SUPPORTED_VERSION /\
  AguiService.validateAguiMessage (aguiMessage (renderer other_version)) = false /\
  createdComponents (renderer (renderComponents reg_text 5 other_version)) = [0] /\
  totalComponents (renderStats (renderer (renderComponents reg_text 5 other_version))) = 1 /\
  createdComponents (renderer (renderComponents reg_text 5 empty_list)) = [].
Proof. vm_compute. split_and!; try reflexivity. discriminate. Qed.

Lemma renderComponents_ignores_version_witness :
  AguiService.validateAguiMessage (Some (with_version "2.0" (manifest "1.0" (Some [c2]))))
    = false /\
  forget_message (renderComponents reg_text 5
                    (with_message (Some (with_version "2.0" (manifest "1.0" (Some [c2]))))
                                  initialWorld)) =
  forget_message (renderComponents reg_text 5
                    (with_message (Some (manifest "1.0" (Some [c2]))) initialWorld)).
Proof.
  apply (renderComponents_ignores_version reg_text 5 initialWorld
           (manifest "1.0" (Some [c2])) "2.0").
  discriminate.
Defined.






Lemma destroyAllComponents_idempotent_witness :
  createdComponents (renderer (renderComponents reg_text 5 pair)) = [0; 1] /\
  released (dom (destroyAllComponents (renderComponents reg_text 5 pair))) 0 /\
  released (dom (destroyAllComponents (renderComponents reg_text 5 pair))) 1 /\
  views (dom (destroyAllComponents (renderComponents reg_text 5 pair))) = [] /\
  createdComponents (renderer (destroyAllComponents (renderComponents reg_text 5 pair))) = [] /\
  destroyAllComponents (destroyAllComponents (renderComponents reg_text 5 pair)) =
  destroyAllComponents (renderComponents reg_text 5 pair).
Proof.
  destruct (destroyAllComponents_idempotent (renderComponents reg_text 5 pair))
    as (Hrel & Hv & Hc & _ & Hidem & _).
  - intros ref Hin. vm_compute in Hin |- *. exact Hin.
  - split_and!; try assumption.
    + vm_compute. reflexivity.
    + apply Hrel. vm_compute. apply list_elem_of_here.
    + apply Hrel. vm_compute. apply list_elem_of_further, list_elem_of_here.
Defined.

(** An empty entry list takes the general path: the pass measures its
    own duration and reports completion.  The statistics are not all
    zero: the statement of C8 fails on [renderTime]. *)
Lemma empty_list_measures_time :
  message_components (aguiMessage (renderer empty_list)) = Some [] /\
  createdComponents (renderer (renderComponents reg_text 5 empty_list)) = [] /\
  renderTime (renderStats (renderer (renderComponents reg_text 5 empty_list))) = 5%Z /\
  renderStats (renderer (renderComponents reg_text 5 empty_list)) <> initialStats.
Proof.
  split_and!; try (vm_compute; reflexivity).
  intros H. apply (f_equal renderTime) in H. vm_compute in H. discriminate.
Qed.

Lemma renderComponents_nothing_to_render_witness :
  createdComponents (renderer (renderComponents reg_text 5 empty_list)) = [] /\
  renderStats (renderer (renderComponents reg_text 5 empty_list)) =
    with_renderTime 5 initialStats /\
  emitted (renderComponents reg_text 5 empty_list) =
    [renderComplete (with_renderTime 5 initialStats)].
Proof.
  destruct (renderComponents_nothing_to_render reg_text 5 empty_list)
    as (Hc & _ & _ & Hs & He & _).
  - right. reflexivity.
  - split_and!; [exact Hc|exact Hs|exact He].
Defined.

End Instances.

(* ===================================================================== *)
(** ** The registry: resolution on every path, and administration *)
(* ===================================================================== *)

Section RegistryPaths.

Import Registry RegistryAdmin.

Implicit Types (reg : Registry.t) (d : Dom).

(** The table only leads to the default fallback type. *)
Lemma findFallbackComponent_cases reg X :
  findFallbackComponent X reg = (reg !! DEFAULT_FALLBACK, DEFAULT_FALLBACK) \/
  findFallbackComponent X reg = (None, X).
Proof.
  destruct (mapping_of X fallbackMappings) as [Y|] eqn:E.
  - left. rewrite (findFallbackComponent_mapped reg X Y E).
    apply mapping_of_target in E as ->. reflexivity.
  - right. by apply findFallbackComponent_unmapped.
Qed.

(** A request that resolves to a type is created as that type, or
    fails with an error of the host. *)
Lemma createComponent_resolves reg X data d T :
  resolves_to reg X = Some T ->
  exists m,
    reg !! T = Some m /\
    T = (if bool_decide (is_Some (reg !! X)) then X else "text_section") /\
    match createComponent X data reg d with
    | (_, inr result) =>
        actualType result = T /\
        result_metadata result = m /\
        wasOriginalType result = bool_decide (is_Some (reg !! X))
    | (d', inl e) =>
        (construct_throws (componentClass m) = Some e /\ d' = d) \/
        (construct_throws (componentClass m) = None /\
         detectChanges_throws (componentClass m) data = Some e)
    end.
Proof.
  unfold resolves_to. intros HT.
  destruct (reg !! X) as [mX|] eqn:EX.
  - rewrite bool_decide_eq_true_2 in HT |- * by eauto. injection HT as <-.
    exists mX. split; [exact EX|].
    split; [reflexivity|].
    pose proof (createComponent_resolved reg X data d mX X true) as H.
    cbv zeta in H. rewrite EX in H. specialize (H eq_refl).
    destruct (createComponent X data reg d) as [d' [e|res]]; [exact H|].
    destruct H as (? & ? & ? & _). done.
  - rewrite bool_decide_eq_false_2 in HT |- * by (intros [? ?]; discriminate).
    destruct (reg !! DEFAULT_FALLBACK) as [mD|] eqn:ED.
    + rewrite bool_decide_eq_true_2 in HT by eauto. injection HT as <-.
      exists mD. split; [exact ED|].
      split; [reflexivity|].
      pose proof (createComponent_resolved reg X data d mD DEFAULT_FALLBACK false) as H.
      cbv zeta in H. rewrite EX in H.
      destruct (findFallbackComponent_cases reg X) as [E|E]; rewrite E in H;
        simpl in H; rewrite ED in H; specialize (H eq_refl);
        (destruct (createComponent X data reg d) as [d' [e|res]]; [exact H|];
         destruct H as (? & ? & ? & _); done).
    + rewrite bool_decide_eq_false_2 in HT by (intros [? ?]; discriminate).
      discriminate.
Qed.

(** A request that resolves to nothing throws the configuration error
    before the container is touched. *)
Lemma createComponent_unresolved reg X data d :
  resolves_to reg X = None ->
  createComponent X data reg d = (d, inl default_fallback_missing).
Proof.
  unfold resolves_to. intros HT.
  destruct (reg !! X) as [mX|] eqn:EX.
  - rewrite bool_decide_eq_true_2 in HT by eauto. discriminate.
  - rewrite bool_decide_eq_false_2 in HT by (intros [? ?]; discriminate).
    destruct (reg !! DEFAULT_FALLBACK) as [mD|] eqn:ED.
    + rewrite bool_decide_eq_true_2 in HT by eauto. discriminate.
    + unfold createComponent. rewrite EX.
      destruct (findFallbackComponent_cases reg X) as [E|E]; rewrite E;
        simpl; rewrite ED; reflexivity.
Qed.

(** X1: [createComponent] on every path.  A registered type is created
    as itself, with [wasOriginalType = true]; a type that is not
    registered is created as ['text_section'], with
    [wasOriginalType = false], whenever that type is registered, whether
    the static table lists the requested type or not; when neither is
    registered the call throws the configuration error and leaves the
    container as it was.  In the first two cases the metadata of the
    result is the registry's entry for the actual type, and the only
    errors are the host's. *)
Theorem createComponent_resolution reg X data d :
  match resolves_to reg X with
  | None =>
      createComponent X data reg d = (d, inl default_fallback_missing)
  | Some T =>
      exists m,
        reg !! T = Some m /\
        T = (if bool_decide (is_Some (reg !! X)) then X else "text_section") /\
        match createComponent X data reg d with
        | (_, inr result) =>
            actualType result = T /\
            result_metadata result = m /\
            wasOriginalType result = bool_decide (is_Some (reg !! X))
        | (d', inl e) =>
            (construct_throws (componentClass m) = Some e /\ d' = d) \/
            (construct_throws (componentClass m) = None /\
             detectChanges_throws (componentClass m) data = Some e)
        end
  end.
Proof.
  destruct (resolves_to reg X) as [T|] eqn:E.
  - exact (createComponent_resolves reg X data d T E).
  - exact (createComponent_unresolved reg X data d E).
Qed.

(** X2: with ['text_section'] registered and a host that instantiates
    every registered class, [createComponent] returns a result for every
    requested type, and the result names a registered type with its own
    metadata: the fallback chain always lands. *)
Theorem createComponent_always_lands reg X data d :
  is_Some (reg !! DEFAULT_FALLBACK) ->
  host_accepts reg ->
  exists d' result,
    createComponent X data reg d = (d', inr result) /\
    reg !! actualType result = Some (result_metadata result) /\
    (wasOriginalType result = false -> actualType result = "text_section").
Proof.
  intros HD Hhost.
  assert (exists T, resolves_to reg X = Some T) as [T HT].
  { unfold resolves_to. destruct (bool_decide (is_Some (reg !! X))); [eauto|].
    rewrite bool_decide_eq_true_2 by exact HD. eauto. }
  destruct (createComponent_resolves reg X data d T HT) as (m & Hm & HTeq & H).
  destruct (Hhost _ _ data Hm) as [Hc Hdc].
  destruct (createComponent X data reg d) as [d' [e|res]].
  - destruct H as [[H _]|[_ H]]; congruence.
  - destruct H as (HT' & HM & Hw). exists d', res. split; [reflexivity|].
    split; [by rewrite HT', HM|].
    intros Hf. rewrite Hf in Hw. rewrite <- Hw in HTeq. congruence.
Qed.

(** X3: registration and lookup.  After [registerComponent] the type is
    registered with the given class and the given metadata, absent fields
    at their defaults; every other type is as before; registering the
    type again replaces the entry; and unregistering a type registered on
    top of a registry that did not have it gives that registry back. *)
Theorem registerComponent_lookup reg T cls meta :
  getComponentMetadata T (registerComponent T cls meta reg) =
    Some {| componentClass := cls;
            fallbackType := given_fallbackType meta;
            requiresInteraction := default false (given_requiresInteraction meta);
            meta_category := default "general" (given_category meta);
            displayName := default T (given_displayName meta);
            description := default ("Dynamic " +:+ T +:+ " component")
                                   (given_description meta) |} /\
  isComponentRegistered T (registerComponent T cls meta reg) = true /\
  (forall U, U <> T ->
     getComponentMetadata U (registerComponent T cls meta reg) =
     getComponentMetadata U reg) /\
  (forall cls' meta',
     registerComponent T cls' meta' (registerComponent T cls meta reg) =
     registerComponent T cls' meta' reg) /\
  isComponentRegistered T (unregisterComponent T (registerComponent T cls meta reg))
    = false /\
  (isComponentRegistered T reg = false ->
   unregisterComponent T (registerComponent T cls meta reg) = reg).
Proof.
  unfold getComponentMetadata, isComponentRegistered, registerComponent,
    unregisterComponent.
  split_and!.
  - apply lookup_insert_eq.
  - apply bool_decide_eq_true_2. rewrite lookup_insert_eq. eauto.
  - intros U HU. by apply lookup_insert_ne.
  - intros cls' meta'. apply insert_insert_eq.
  - apply bool_decide_eq_false_2. rewrite lookup_delete_eq. intros [? ?]. discriminate.
  - intros H. apply bool_decide_eq_false in H.
    rewrite delete_insert_eq. apply delete_id.
    destruct (reg !! T) eqn:E; [|reflexivity]. exfalso. apply H. eauto.
Qed.


End RegistryPaths.

(* ===================================================================== *)
(** ** The payload handed to a widget, and the lookups that read it *)
(* ===================================================================== *)

Section Lookups.

Implicit Types (reg : Registry.t) (w : World) (c : AGUIComponent).

Lemma lookup_set_field_eq k v fs : Js.lookup_field k (Js.set_field k v fs) = v.
Proof.
  induction fs as [|[k' v'] fs IH]; simpl.
  - by rewrite String.eqb_refl.
  - destruct (String.eqb k k') eqn:E; simpl.
    + by rewrite String.eqb_refl.
    + by rewrite E.
Qed.



Lemma agui_type_of_merged_data c : agui_type_of (merged_data c) = Js.Str (type c).
Proof. unfold agui_type_of. simpl. rewrite lookup_set_field_eq. reflexivity. Qed.



Lemma instance_has_type_rendered w ref c t :
  rendered_as w ref c ->
  instance_has_type t w ref = true <-> type c = t.
Proof.
  intros [_ [cls Hi]]. unfold instance_has_type. rewrite Hi. simpl.
  rewrite agui_type_of_merged_data.
  apply String.eqb_eq.
Qed.


(** X7: [getComponentsByType] after a pass lists exactly the managed
    widgets whose entry asked for that type: it reads the type
    the manifest requested, not the type that was instantiated, so a
    widget created through a fallback is listed under the type it was
    requested as. *)
Theorem getComponentsByType_after_pass reg dt w t ref :
  let w' := renderComponents reg dt w in
  ref ∈ getComponentsByType t w' <->
  ref ∈ createdComponents (renderer w') /\
  exists c, rendered_as w' ref c /\ type c = t.
Proof.
  intros w'. unfold getComponentsByType.
  rewrite list_elem_of_In, filter_In, <- list_elem_of_In. split.
  - intros [Hin Ht]. split; [exact Hin|].
    destruct (managed_after_pass reg dt w ref Hin) as (_ & c & _ & _ & Hr & _).
    exists c. split; [exact Hr|].
    by apply (instance_has_type_rendered w' ref c t Hr).
  - intros [Hin (c & Hr & Ht)]. split; [exact Hin|].
    by apply (instance_has_type_rendered w' ref c t Hr).
Qed.

End Lookups.

(* ===================================================================== *)
(** ** What a pass reports, replaces and counts *)
(* ===================================================================== *)

Section PassReports.

Import RegistryAdmin.

Implicit Types (reg : Registry.t) (w : World) (c : AGUIComponent)
  (l : list AGUIComponent).

(** The loop, returning or not, touches neither the clock, nor the
    events, nor the inputs and flags of the renderer, and only adds to
    the store. *)
Lemma render_each_frame reg l w :
  let w' := fst (render_each reg l w) in
  clock w' = clock w /\ emitted w' = emitted w /\
  aguiMessage (renderer w') = aguiMessage (renderer w) /\
  maxComponents (renderer w') = maxComponents (renderer w) /\
  isRendering (renderer w') = isRendering (renderer w) /\
  renderErrorMessage (renderer w') = renderErrorMessage (renderer w) /\
  exists hext, heap (dom w') = heap (dom w) ++ hext.
Proof.
  revert w. induction l as [|c l IH]; intros w; simpl.
  - split_and!; try reflexivity. exists []. by rewrite app_nil_r.
  - pose proof (renderSingleComponent_spec reg c w) as S.
    destruct (Registry.createComponent (type c) (data c) reg (dom w)) as [d [e|res]].
    + destruct S as [-> Hd]. simpl. split_and!; try reflexivity.
      destruct Hd as [->|[cls ->]]; [exists []; by rewrite app_nil_r|].
      simpl. by eexists.
    + rewrite S. specialize (IH (after_entry c res w)). cbv zeta in IH.
      destruct IH as (H1 & H2 & H3 & H4 & H5 & H6 & hext & H7).
      simpl in *. split_and!; try assumption.
      eexists. rewrite H7, <- app_assoc. reflexivity.
Qed.

Lemma renderComponents_heap reg dt w :
  exists hext,
    heap (dom (renderComponents reg dt w)) = heap (container_clear (dom w)) ++ hext.
Proof.
  destruct (message_components (aguiMessage (renderer w))) as [comps|] eqn:Hm.
  - rewrite (renderComponents_phases reg dt w comps Hm).
    destruct (render_each_frame reg
                (sortedComponents (maxComponents (renderer w)) comps) (begin_pass w))
      as (_ & _ & _ & _ & _ & _ & hext & Hh).
    rewrite begin_pass_eq in Hh at 2. simpl in Hh.
    exists hext. unfold end_pass.
    destruct (snd (render_each reg _ (begin_pass w))); exact Hh.
  - rewrite (renderComponents_no_components reg dt w Hm), clearComponents_eq.
    exists []. simpl. by rewrite app_nil_r.
Qed.

(** X8: a new pass replaces the previous one.  Whatever the message now
    bound, every widget managed before [renderComponents] is destroyed by
    it and is no longer managed after it; the widgets managed after it are
    all at addresses allocated by this pass. *)
Theorem renderComponents_replaces reg dt w :
  managed_in_container w ->
  let w' := renderComponents reg dt w in
  (forall ref i,
     ref ∈ createdComponents (renderer w) -> heap (dom w) !! ref = Some i ->
     exists i', heap (dom w') !! ref = Some i' /\ destroyed i' = true) /\
  (forall ref i,
     ref ∈ createdComponents (renderer w) -> heap (dom w) !! ref = Some i ->
     ref ∉ createdComponents (renderer w')) /\
  (forall ref,
     ref ∈ createdComponents (renderer w') -> length (heap (dom w)) <= ref).
Proof.
  intros Hm w'.
  assert (forall ref,
            ref ∈ createdComponents (renderer w') -> length (heap (dom w)) <= ref) as Hfresh.
  { intros ref Hin. subst w'.
    destruct (message_components (aguiMessage (renderer w))) as [comps|] eqn:E.
    - destruct (renderComponents_outcome reg dt w comps E) as (n & _ & Hcs & _).
      rewrite Hcs in Hin. apply elem_of_seq in Hin. lia.
    - rewrite (renderComponents_no_components reg dt w E), clearComponents_eq in Hin.
      simpl in Hin. by apply elem_of_nil in Hin. }
  split_and!.
  - intros ref i Hin Hi. subst w'.
    destruct (renderComponents_heap reg dt w) as [hext Hh].
    destruct (container_clear_spec (dom w)) as (_ & Hlen & Hrel).
    specialize (Hrel ref (Hm ref Hin)). unfold released in Hrel.
    apply lookup_lt_Some in Hi. rewrite <- Hlen in Hi.
    destruct (lookup_lt_is_Some_2 _ _ Hi) as [i' Hi'].
    rewrite Hi' in Hrel. exists i'. split; [|exact Hrel].
    rewrite Hh, lookup_app_l by exact Hi. exact Hi'.
  - intros ref i Hin Hi Hin'. apply Hfresh in Hin'.
    apply lookup_lt_Some in Hi. lia.
  - exact Hfresh.
Qed.

Lemma createComponent_actualType reg X data d d' result :
  Registry.createComponent X data reg d = (d', inr result) ->
  resolves_to reg X = Some (actualType result) /\
  reg !! actualType result = Some (result_metadata result) /\
  wasOriginalType result = bool_decide (is_Some (reg !! X)).
Proof.
  intros H. destruct (resolves_to reg X) as [T|] eqn:E.
  - destruct (createComponent_resolves reg X data d T E) as (m & Hm & _ & R).
    rewrite H in R. destruct R as (<- & <- & ->). done.
  - rewrite (createComponent_unresolved reg X data d E) in H. discriminate.
Qed.

Lemma lookup_bump k j (m : gmap string nat) :
  default 0 (bump k m !! j) =
  default 0 (m !! j) + (if decide (k = j) then 1 else 0).
Proof.
  unfold bump. case_decide as E.
  - subst j. rewrite lookup_insert_eq. reflexivity.
  - rewrite lookup_insert_ne by exact E. lia.
Qed.

(** What the loop adds to the statistics when it returns. *)
Lemma render_each_counts reg l w w' :
  render_each reg l w = (w', None) ->
  let s := renderStats (renderer w) in
  let s' := renderStats (renderer w') in
  renderTime s' = renderTime s /\
  fallbacksUsed s' =
    fallbacksUsed s + length (filter (fun c => ~ is_Some (reg !! type c)) l) /\
  (forall c, c ∈ l -> is_Some (resolves_to reg (type c))) /\
  forall k,
    default 0 (componentsByCategory s' !! k) =
      default 0 (componentsByCategory s !! k)
      + length (filter (fun c => category c = k) l) /\
    default 0 (componentsByType s' !! k) =
      default 0 (componentsByType s !! k)
      + length (filter (fun c => resolves_to reg (type c) = Some k) l).
Proof.
  revert w. induction l as [|c l IH]; intros w H; simpl in H.
  - injection H as <-. cbv zeta. split_and!; try reflexivity.
    + simpl. lia.
    + intros c Hc. by apply elem_of_nil in Hc.
    + intros k. simpl. split; lia.
  - destruct (renderSingleComponent reg c w) as [w1 [e1|]] eqn:E; [discriminate|].
    apply renderSingleComponent_ok in E as (d & res & Hcr & ->).
    destruct (createComponent_actualType _ _ _ _ _ _ Hcr) as (HT & _ & Hw).
    specialize (IH _ H). cbv zeta in IH. simpl in IH.
    destruct IH as (Ht & Hf & Hres & Hk). cbv zeta. split_and!.
    + exact Ht.
    + rewrite Hf, Hw, filter_cons. simpl.
      destruct (decide (is_Some (reg !! type c))) as [Hs|Hs].
      * rewrite bool_decide_eq_true_2 by exact Hs. simpl.
        rewrite decide_False by tauto. lia.
      * rewrite bool_decide_eq_false_2 by exact Hs. simpl.
        rewrite decide_True by exact Hs. simpl. lia.
    + intros c' Hc'. apply elem_of_cons in Hc' as [->|Hc'].
      * rewrite HT. eauto.
      * by apply Hres.
    + intros k. destruct (Hk k) as [Hc Hy]. rewrite Hc, Hy, !lookup_bump.
      rewrite !filter_cons, HT.
      split.
      * destruct (decide (category c = k)); simpl; lia.
      * destruct (decide (actualType res = k)) as [->|Hne].
        -- rewrite decide_True by reflexivity. simpl. lia.
        -- rewrite decide_False by congruence. lia.
Qed.

(** X9: what a pass reports.  Over no entry list it emits nothing and
    leaves the rendering flag and any earlier error message as they
    were.  Over an entry list it emits exactly one event and clears the
    rendering flag: either every kept entry was rendered, the event is
    the completion with the final statistics, [renderTime] is the time
    the pass took and no error message is held; or the creation of a kept
    entry failed, the event is a render error, the error message held by
    the renderer is the message of that error, and [renderTime] stays
    zero. *)
Theorem renderComponents_reports reg dt w :
  let w' := renderComponents reg dt w in
  match message_components (aguiMessage (renderer w)) with
  | None =>
      emitted w' = emitted w /\
      isRendering (renderer w') = isRendering (renderer w) /\
      renderErrorMessage (renderer w') = renderErrorMessage (renderer w)
  | Some comps =>
      let kept := sortedComponents (maxComponents (renderer w)) comps in
      isRendering (renderer w') = false /\
      ((renderErrorMessage (renderer w') = None /\
        emitted w' = emitted w ++ [renderComplete (renderStats (renderer w'))] /\
        renderTime (renderStats (renderer w')) = Z.of_N dt /\
        totalComponents (renderStats (renderer w')) = length kept) \/
       (exists c cause,
          c ∈ kept /\
          renderErrorMessage (renderer w') =
            Some (error_message (render_failure c cause)) /\
          emitted w' = emitted w ++
            [renderError (new_Error (error_message (render_failure c cause)))] /\
          renderTime (renderStats (renderer w')) = 0%Z /\
          totalComponents (renderStats (renderer w')) < length kept))
  end.
Proof.
  intros w'. subst w'.
  destruct (message_components (aguiMessage (renderer w))) as [comps|] eqn:Hm.
  - cbv zeta.
    destruct (render_each reg (sortedComponents (maxComponents (renderer w)) comps)
                (begin_pass w)) as [w1 [e|]] eqn:E.
    + apply render_each_fail_split in E as (pre & c & post & w0 & Hs & Hpre & Hc).
      apply renderSingleComponent_fail in Hc as (d & cause & Hcr & -> & -> & _).
      rewrite (renderComponents_failed reg dt w comps pre c post w0 d cause Hm Hs Hpre Hcr).
      pose proof (render_each_counts reg pre _ _ Hpre) as (Ht & _).
      apply render_each_ok in Hpre. cbv zeta in Hpre.
      destruct Hpre as (_ & _ & _ & _ & Hem & _ & _ & _ & _ & Htot & _).
      destruct (begin_pass_fields w) as (_ & _ & Bs & _ & Be).
      rewrite Bs in Ht, Htot. rewrite Be in Hem. simpl in Ht, Htot.
      simpl. split; [reflexivity|]. right. exists c, cause. split_and!.
      * rewrite Hs. apply elem_of_app. right. left.
      * reflexivity.
      * rewrite Hem. reflexivity.
      * exact Ht.
      * rewrite Htot, Hs, length_app. simpl. lia.
    + rewrite (renderComponents_completed reg dt w comps w1 Hm E).
      apply render_each_ok in E. cbv zeta in E.
      destruct E as (_ & _ & _ & _ & _ & _ & _ & _ & Herr & Htot & _).
      destruct (begin_pass_fields w) as (_ & _ & Bs & _ & _).
      rewrite Bs in Htot. rewrite begin_pass_eq in Herr. simpl in Herr, Htot.
      simpl. split; [reflexivity|]. left. split_and!; try reflexivity.
      * exact Herr.
      * exact Htot.
  - rewrite (renderComponents_no_components reg dt w Hm), clearComponents_eq.
    simpl. done.
Qed.

(** The counts after a pass are the counts of the entries it rendered. *)
Lemma renderComponents_counts reg dt w comps :
  message_components (aguiMessage (renderer w)) = Some comps ->
  let s := renderStats (renderer (renderComponents reg dt w)) in
  let rendered :=
    take (totalComponents s) (sortedComponents (maxComponents (renderer w)) comps) in
  length rendered = totalComponents s /\
  fallbacksUsed s = length (filter (fun c => ~ is_Some (reg !! type c)) rendered) /\
  (forall k,
     default 0 (componentsByCategory s !! k) =
       length (filter (fun c => category c = k) rendered)) /\
  (forall k,
     default 0 (componentsByType s !! k) =
       length (filter (fun c => resolves_to reg (type c) = Some k) rendered)).
Proof.
  intros Hm.
  assert (forall pre w1 (s1 : RenderStatistics),
            render_each reg pre (begin_pass w) = (w1, None) ->
            totalComponents s1 = totalComponents (renderStats (renderer w1)) ->
            fallbacksUsed s1 = fallbacksUsed (renderStats (renderer w1)) ->
            componentsByCategory s1 = componentsByCategory (renderStats (renderer w1)) ->
            componentsByType s1 = componentsByType (renderStats (renderer w1)) ->
            totalComponents s1 = length pre /\
            fallbacksUsed s1 = length (filter (fun c => ~ is_Some (reg !! type c)) pre) /\
            (forall k,
               default 0 (componentsByCategory s1 !! k) =
                 length (filter (fun c => category c = k) pre)) /\
            (forall k,
               default 0 (componentsByType s1 !! k) =
                 length (filter (fun c => resolves_to reg (type c) = Some k) pre)))
    as Hcount.
  { intros pre w1 s1 Hpre H1 H2 H3 H4.
    pose proof (render_each_counts reg pre _ _ Hpre) as (_ & Hf & _ & Hk).
    apply render_each_ok in Hpre. cbv zeta in Hpre.
    destruct Hpre as (_ & _ & _ & _ & _ & _ & _ & _ & _ & Htot & _).
    destruct (begin_pass_fields w) as (_ & _ & Bs & _ & _).
    rewrite Bs in Hf, Hk, Htot. simpl in Hf, Hk, Htot.
    rewrite H1, H2, H3, H4. split_and!; try assumption.
    - intros k. destruct (Hk k) as [-> _]. rewrite lookup_empty. reflexivity.
    - intros k. destruct (Hk k) as [_ ->]. rewrite lookup_empty. reflexivity. }
  cbv zeta.
  destruct (render_each reg (sortedComponents (maxComponents (renderer w)) comps)
              (begin_pass w)) as [w1 [e|]] eqn:E.
  - apply render_each_fail_split in E as (pre & c & post & w0 & Hs & Hpre & Hc).
    apply renderSingleComponent_fail in Hc as (d & cause & Hcr & -> & -> & _).
    rewrite (renderComponents_failed reg dt w comps pre c post w0 d cause Hm Hs Hpre Hcr).
    simpl.
    destruct (Hcount pre w0 (renderStats (renderer w0)) Hpre eq_refl eq_refl eq_refl eq_refl)
      as (Ht & Hf & Hc & Hy).
    rewrite Hs, Ht, take_app_length.
    split_and!; try assumption; reflexivity.
  - rewrite (renderComponents_completed reg dt w comps w1 Hm E). simpl.
    destruct (Hcount _ w1 (renderStats (renderer w1)) E eq_refl eq_refl eq_refl eq_refl)
      as (Ht & Hf & Hc & Hy).
    rewrite Ht, firstn_all.
    split_and!; try assumption; reflexivity.
Qed.


(** The outcome of [createComponent] does not depend on what the
    container holds, the address of the new widget apart. *)
Lemma createComponent_outcome_independent reg X data d1 d2 :
  match snd (Registry.createComponent X data reg d1),
        snd (Registry.createComponent X data reg d2) with
  | inl e1, inl e2 => e1 = e2
  | inr r1, inr r2 =>
      result_metadata r1 = result_metadata r2 /\
      wasOriginalType r1 = wasOriginalType r2 /\
      actualType r1 = actualType r2
  | _, _ => False
  end.
Proof.
  unfold Registry.createComponent, container_createComponent.
  destruct (reg !! X) as [m|];
    [|destruct (Registry.findFallbackComponent X reg) as [[m|] T]; simpl;
      [|destruct (reg !! Registry.DEFAULT_FALLBACK) as [m|]; [|reflexivity]]];
    (destruct (construct_throws (componentClass m)); [reflexivity|];
     cbv zeta;
     destruct (detectChanges_throws (componentClass m) data); simpl; done).
Qed.

Lemma render_each_repeatable reg l w v :
  renderStats (renderer w) = renderStats (renderer v) ->
  renderStats (renderer (fst (render_each reg l w))) =
  renderStats (renderer (fst (render_each reg l v))) /\
  snd (render_each reg l w) = snd (render_each reg l v).
Proof.
  revert w v. induction l as [|c l IH]; intros w v Hs; simpl; [done|].
  pose proof (renderSingleComponent_spec reg c w) as Sw.
  pose proof (renderSingleComponent_spec reg c v) as Sv.
  pose proof (createComponent_outcome_independent reg (type c) (data c) (dom w) (dom v)) as I.
  destruct (Registry.createComponent (type c) (data c) reg (dom w)) as [dw [ew|rw]],
           (Registry.createComponent (type c) (data c) reg (dom v)) as [dv [ev|rv]];
    simpl in I; try contradiction.
  - destruct Sw as [-> _], Sv as [-> _]. simpl. subst ev. done.
  - rewrite Sw, Sv. apply IH. simpl.
    destruct I as (_ & Hw & Ht). unfold updateRenderStats. rewrite Hs, Hw, Ht.
    reflexivity.
Qed.

(** What a pass over an entry list leaves, read off the loop. *)
Lemma renderComponents_summary reg dt w comps :
  message_components (aguiMessage (renderer w)) = Some comps ->
  let r := render_each reg (sortedComponents (maxComponents (renderer w)) comps)
                       (begin_pass w) in
  let w' := renderComponents reg dt w in
  renderStats (renderer w') =
    match snd r with
    | None => with_renderTime (Z.of_N dt) (renderStats (renderer (fst r)))
    | Some _ => renderStats (renderer (fst r))
    end /\
  renderErrorMessage (renderer w') =
    match snd r with
    | None => None
    | Some e => Some (error_message e)
    end /\
  drop (length (emitted w)) (emitted w') =
    [match snd r with
     | None => renderComplete
                 (with_renderTime (Z.of_N dt) (renderStats (renderer (fst r))))
     | Some e => renderError (if instanceof_Error e then e
                              else new_Error (error_message e))
     end] /\
  createdComponents (renderer w') = createdComponents (renderer (fst r)) /\
  aguiMessage (renderer w') = aguiMessage (renderer w) /\
  maxComponents (renderer w') = maxComponents (renderer w).
Proof.
  intros Hm. cbv zeta.
  rewrite (renderComponents_phases reg dt w comps Hm).
  destruct (render_each_frame reg
              (sortedComponents (maxComponents (renderer w)) comps) (begin_pass w))
    as (C & E & A & X & _ & M & _).
  rewrite begin_pass_eq in C at 2. rewrite begin_pass_eq in E at 2.
  rewrite begin_pass_eq in A at 2. rewrite begin_pass_eq in X at 2.
  rewrite begin_pass_eq in M at 2.
  simpl in C, E, A, X, M.
  destruct (render_each reg _ (begin_pass w)) as [a [e|]];
    simpl in C, E, A, X, M |- *; unfold end_pass; simpl;
    unfold with_renderer, emit, advance; simpl; rewrite E, drop_app_length.
  - split_and!; try reflexivity; assumption.
  - rewrite C. replace (clock w + Z.of_N dt - clock w)%Z with (Z.of_N dt) by lia.
    split_and!; try reflexivity; assumption.
Qed.

(** X11: a retry repeats the pass.  With the registry and the inputs
    unchanged, a [retryRender] that takes as long as the pass it follows
    ends with the same statistics
    and the same error message as that pass, and emits the same event:
    what failed fails again, on the same entry. *)
Theorem retryRender_repeats reg dt w :
  let w1 := renderComponents reg dt w in
  let w2 := retryRender reg dt w1 in
  renderStats (renderer w2) = renderStats (renderer w1) /\
  renderErrorMessage (renderer w2) = renderErrorMessage (renderer w1) /\
  drop (length (emitted w1)) (emitted w2) = drop (length (emitted w)) (emitted w1) /\
  length (createdComponents (renderer w2)) = length (createdComponents (renderer w1)).
Proof.
  cbv zeta. unfold retryRender.
  destruct (message_components (aguiMessage (renderer w))) as [comps|] eqn:Hm.
  - destruct (renderComponents_summary reg dt w comps Hm)
      as (S0 & M0 & E0 & K0 & A0 & X0).
    assert (exists m, aguiMessage (renderer w) = Some m) as [m Em].
    { destruct (aguiMessage (renderer w)) as [m|]; [eauto|discriminate]. }
    remember (renderComponents reg dt w) as w1 eqn:Hw1. clear Hw1.
    assert (message_components (aguiMessage (renderer w1)) = Some comps) as Hm1
      by (rewrite A0; exact Hm).
    rewrite A0, Em.
    destruct (renderComponents_summary reg dt w1 comps Hm1)
      as (S1 & M1 & E1 & K1 & _ & _).
    rewrite X0 in S1, M1, E1, K1.
    set (l := sortedComponents (maxComponents (renderer w)) comps) in *.
    destruct (render_each_repeatable reg l (begin_pass w1) (begin_pass w)) as [Hs Ht].
    { rewrite !begin_pass_eq. reflexivity. }
    pose proof (render_each_consistent reg l (begin_pass w1) (begin_pass_consistent w1))
      as (L1 & _).
    pose proof (render_each_consistent reg l (begin_pass w) (begin_pass_consistent w))
      as (L0 & _).
    rewrite S1, M1, E1, K1, S0, M0, E0, K0, Ht, Hs, <- L1, <- L0, Hs.
    done.
  - rewrite (renderComponents_no_components reg dt w Hm).
    destruct (aguiMessage (renderer (clearComponents w))) as [m|] eqn:Em.
    + assert (message_components (aguiMessage (renderer (clearComponents w))) = None)
        as Hm1 by (rewrite clearComponents_eq; exact Hm).
      rewrite (renderComponents_no_components reg dt _ Hm1).
      rewrite !clearComponents_eq. simpl. rewrite !drop_all. done.
    + rewrite !clearComponents_eq. simpl. rewrite !drop_all. done.
Qed.

End PassReports.

(* ===================================================================== *)
(** ** Operations on messages ([AguiService]) *)
(* ===================================================================== *)

Section MessageOperations.

Import AguiService.

Implicit Types (m : AGUIMessage) (c : AGUIComponent) (cs : list AGUIComponent).

Lemma forallb_list_filter {A} (f p : A -> bool) (l : list A) :
  forallb f l = true -> forallb f (List.filter p l) = true.
Proof.
  induction l as [|x l IH]; simpl; [done|].
  intros H. apply andb_true_iff in H as [Hx Hl].
  destruct (p x); simpl; [rewrite Hx|]; by apply IH.
Qed.

Lemma list_filter_comm {A} (p q : A -> bool) (l : list A) :
  List.filter p (List.filter q l) = List.filter q (List.filter p l).
Proof.
  induction l as [|x l IH]; simpl; [done|].
  destruct (q x) eqn:Q, (p x) eqn:P; simpl; rewrite ?Q, ?P, IH; reflexivity.
Qed.

Lemma list_filter_idem {A} (p : A -> bool) (l : list A) :
  List.filter p (List.filter p l) = List.filter p l.
Proof.
  induction l as [|x l IH]; simpl; [done|].
  destruct (p x) eqn:P; simpl; rewrite ?P, IH; reflexivity.
Qed.

(** A valid message stays valid when entries are taken out. *)
Lemma validate_replace_filter m cs p :
  validateAguiMessage (Some m) = true -> components m = Some cs ->
  validateAguiMessage (Some (replace_components (List.filter p cs) m)) = true.
Proof.
  unfold validateAguiMessage. simpl. intros H Hc. rewrite Hc in H.
  destruct (String.eqb (version m) "" || negb (String.eqb (version m) SUPPORTED_VERSION));
    [discriminate|]. by apply forallb_list_filter.
Qed.

Lemma validate_has_components m :
  validateAguiMessage (Some m) = true -> exists cs, components m = Some cs.
Proof.
  unfold validateAguiMessage. destruct (components m); [eauto|discriminate].
Qed.

(** X12: [filterByCategory] and [filterByType].  A message that does not
    validate (no entry list, a version other than ['1.0'], an entry
    without id, type or data) is returned as it is.  A valid message
    keeps, in order, exactly the entries of the wanted category (or
    type), and nothing else of it changes; the result is valid again;
    filtering twice is filtering once; and the two filters commute. *)
Theorem filters_on_messages m cat t :
  (validateAguiMessage (Some m) = false ->
   filterByCategory m cat = m /\ filterByType m t = m) /\
  (forall cs,
     validateAguiMessage (Some m) = true -> components m = Some cs ->
     filterByCategory m cat =
       replace_components (List.filter (fun c => String.eqb (category c) cat) cs) m /\
     filterByType m t =
       replace_components (List.filter (fun c => String.eqb (type c) t) cs) m /\
     (forall c, c ∈ default [] (components (filterByCategory m cat)) <->
                c ∈ cs /\ category c = cat) /\
     (forall c, c ∈ default [] (components (filterByType m t)) <->
                c ∈ cs /\ type c = t) /\
     validateAguiMessage (Some (filterByCategory m cat)) = true /\
     validateAguiMessage (Some (filterByType m t)) = true) /\
  filterByCategory (filterByCategory m cat) cat = filterByCategory m cat /\
  filterByType (filterByCategory m cat) t = filterByCategory (filterByType m t) cat.
Proof.
  assert (forall cs,
     validateAguiMessage (Some m) = true -> components m = Some cs ->
     filterByCategory m cat =
       replace_components (List.filter (fun c => String.eqb (category c) cat) cs) m /\
     filterByType m t =
       replace_components (List.filter (fun c => String.eqb (type c) t) cs) m) as Heq.
  { intros cs Hv Hc. unfold filterByCategory, filterByType. rewrite Hv, Hc. done. }
  assert (validateAguiMessage (Some m) = false ->
          filterByCategory m cat = m /\ filterByType m t = m) as Hinv.
  { intros Hv. unfold filterByCategory, filterByType. rewrite Hv. done. }
  split_and!.
  - exact Hinv.
  - intros cs Hv Hc. destruct (Heq cs Hv Hc) as [E1 E2]. rewrite E1, E2.
    split_and!; try reflexivity.
    + intros c. simpl. rewrite list_elem_of_In, filter_In, <- list_elem_of_In.
      by rewrite String.eqb_eq.
    + intros c. simpl. rewrite list_elem_of_In, filter_In, <- list_elem_of_In.
      by rewrite String.eqb_eq.
    + by apply validate_replace_filter.
    + by apply validate_replace_filter.
  - destruct (validateAguiMessage (Some m)) eqn:Hv.
    + destruct (validate_has_components m Hv) as [cs Hc].
      destruct (Heq cs eq_refl Hc) as [E1 _]. rewrite E1.
      unfold filterByCategory at 1.
      rewrite (validate_replace_filter m cs _ Hv Hc). simpl.
      rewrite list_filter_idem. reflexivity.
    + destruct (Hinv eq_refl) as [E1 _]. rewrite !E1. reflexivity.
  - destruct (validateAguiMessage (Some m)) eqn:Hv.
    + destruct (validate_has_components m Hv) as [cs Hc].
      destruct (Heq cs eq_refl Hc) as [E1 E2]. rewrite E1, E2.
      unfold filterByType at 1. unfold filterByCategory at 1.
      rewrite !(validate_replace_filter m cs _ Hv Hc). simpl.
      rewrite list_filter_comm. reflexivity.
    + destruct (Hinv eq_refl) as [E1 E2]. rewrite E1, E2, E1. reflexivity.
Qed.

Lemma findIndex_Some {A} (p : A -> bool) (l : list A) i :
  findIndex p l = Some i ->
  exists x, l !! i = Some x /\ p x = true /\ List.find p l = Some x.
Proof.
  revert i. induction l as [|x l IH]; intros i H; simpl in *; [discriminate|].
  destruct (p x) eqn:P.
  - injection H as <-. exists x. done.
  - destruct (findIndex p l) as [j|]; [|discriminate]. injection H as <-.
    destruct (IH j eq_refl) as (y & Hy & Py & Fy). exists y. done.
Qed.

Lemma findIndex_None {A} (p : A -> bool) (l : list A) :
  findIndex p l = None <-> List.find p l = None.
Proof.
  induction l as [|x l IH]; simpl; [done|].
  destruct (p x); [done|]. rewrite <- IH.
  destruct (findIndex p l); simpl; split; congruence.
Qed.

Lemma find_insert_at_findIndex {A} (p : A -> bool) (l : list A) i x :
  findIndex p l = Some i -> p x = true -> List.find p (<[i := x]> l) = Some x.
Proof.
  revert i. induction l as [|y l IH]; intros i H Px; simpl in *; [discriminate|].
  destruct (p y) eqn:P.
  - injection H as <-. simpl. by rewrite Px.
  - destruct (findIndex p l) as [j|]; [|discriminate]. injection H as <-.
    simpl. rewrite P. by apply IH.
Qed.

Lemma find_insert_other {A} (q : A -> bool) (l : list A) i x old :
  l !! i = Some old -> q old = false -> q x = false ->
  List.find q (<[i := x]> l) = List.find q l.
Proof.
  revert i. induction l as [|y l IH]; intros [|i] H Qo Qx; simpl in *; try discriminate.
  - injection H as ->. rewrite Qx, Qo. reflexivity.
  - destruct (q y); [reflexivity|]. by eapply IH.
Qed.

Lemma forallb_insert {A} (f : A -> bool) (l : list A) i x :
  forallb f l = true -> f x = true -> forallb f (<[i := x]> l) = true.
Proof.
  revert i. induction l as [|y l IH]; intros [|i] H Fx; simpl in *; try done.
  - apply andb_true_iff in H as [_ Hl]. by rewrite Fx.
  - apply andb_true_iff in H as [Hy Hl]. rewrite Hy. by apply IH.
Qed.

(** X13: [updateComponent] and [findComponentById].  On a valid message
    that holds an entry with the id of the updated component, the update
    puts the component in the place of the first such entry: the message
    keeps its length, a lookup of that id now returns the updated
    component, a lookup of any other id returns what it returned before,
    and the message is valid again when the component is.  When no entry
    has that id, or the message is not valid, the message is returned as
    it is and a lookup in a message that is not valid finds nothing. *)
Theorem updateComponent_findComponentById m c' :
  (validateAguiMessage (Some m) = false ->
   updateComponent m c' = m /\ forall j, findComponentById m j = None) /\
  (validateAguiMessage (Some m) = true ->
   findComponentById m (id c') = None -> updateComponent m c' = m) /\
  (forall old,
     validateAguiMessage (Some m) = true ->
     validateComponent c' = true ->
     findComponentById m (id c') = Some old ->
     validateAguiMessage (Some (updateComponent m c')) = true /\
     findComponentById (updateComponent m c') (id c') = Some c' /\
     (forall j, j <> id c' ->
        findComponentById (updateComponent m c') j = findComponentById m j) /\
     length (default [] (components (updateComponent m c'))) =
     length (default [] (components m))).
Proof.
  split_and!.
  - intros Hv. unfold updateComponent, findComponentById. rewrite Hv. done.
  - intros Hv Hf. unfold updateComponent, findComponentById in *. rewrite Hv in *.
    simpl in *. destruct (components m) as [cs|]; [|reflexivity].
    apply findIndex_None in Hf. rewrite Hf. reflexivity.
  - intros old Hv Hc' Hf.
    destruct (validate_has_components m Hv) as [cs Hc].
    unfold findComponentById in Hf. rewrite Hv, Hc in Hf. simpl in Hf.
    destruct (findIndex (fun c => String.eqb (id c) (id c')) cs) as [i|] eqn:Ei;
      [|apply findIndex_None in Ei; congruence].
    destruct (findIndex_Some _ _ _ Ei) as (x & Hx & Px & Fx).
    assert (updateComponent m c' = replace_components (<[i := c']> cs) m) as ->.
    { unfold updateComponent. rewrite Hv, Hc. simpl. rewrite Ei. reflexivity. }
    assert (validateAguiMessage (Some (replace_components (<[i := c']> cs) m)) = true)
      as Hv'.
    { unfold validateAguiMessage in Hv |- *. simpl. rewrite Hc in Hv.
      destruct (String.eqb (version m) "" || negb (String.eqb (version m) SUPPORTED_VERSION));
        [discriminate|]. by apply forallb_insert. }
    split_and!.
    + exact Hv'.
    + unfold findComponentById. rewrite Hv'. simpl.
      apply find_insert_at_findIndex; [exact Ei|apply String.eqb_refl].
    + intros j Hj. unfold findComponentById. rewrite Hv', Hv, Hc. simpl.
      apply (find_insert_other _ cs i c' x Hx).
      * apply String.eqb_eq in Px. rewrite Px.
        apply String.eqb_neq. congruence.
      * apply String.eqb_neq. congruence.
    + simpl. rewrite Hc. simpl. apply length_insert.
Qed.

Lemma fold_bump_lookup {A} (f : A -> string) (l : list A) (m0 : gmap string nat) k :
  default 0 (fold_left (fun acc x => bump (f x) acc) l m0 !! k) =
  default 0 (m0 !! k) + length (filter (fun x => f x = k) l).
Proof.
  revert m0. induction l as [|x l IH]; intros m0; simpl; [lia|].
  rewrite IH, lookup_bump, filter_cons.
  destruct (decide (f x = k)); simpl; lia.
Qed.



End MessageOperations.

(* ===================================================================== *)
(** ** Replacing in strings *)
(* ===================================================================== *)

Section Replace.

Import ReplacePipe.

Implicit Types (s sep piece : string).

Lemma append_cons a s1 s2 : String a s1 +:+ s2 = String a (s1 +:+ s2).
Proof. reflexivity. Qed.

Lemma append_empty_l s : "" +:+ s = s.
Proof. reflexivity. Qed.

Lemma append_assoc s1 s2 s3 : (s1 +:+ s2) +:+ s3 = s1 +:+ (s2 +:+ s3).
Proof.
  induction s1 as [|a s1 IH]; [reflexivity|].
  by rewrite !append_cons, IH.
Qed.

Lemma append_empty_r s : s +:+ "" = s.
Proof.
  induction s as [|a s IH]; [reflexivity|]. by rewrite append_cons, IH.
Qed.

Lemma prefix_skip sep s :
  String.prefix sep s = true ->
  s = sep +:+ skip_chars (String.length sep) s /\ String.length sep <= String.length s.
Proof.
  revert s. induction sep as [|a sep IH]; intros s H.
  - simpl. split; [reflexivity|lia].
  - destruct s as [|b s]; simpl in H; [discriminate|].
    destruct (Ascii.ascii_dec a b) as [->|]; [|discriminate].
    destruct (IH s H) as [E L]. simpl. rewrite append_cons.
    split; [by rewrite <- E|lia].
Qed.

Lemma split_from_nonempty sep skip piece s : split_from sep skip piece s <> [].
Proof.
  revert skip piece. induction s as [|a s IH]; intros skip piece;
    cbn [split_from]; [done|].
  destruct skip; [|apply IH]. destruct (String.prefix sep (String a s)); [done|apply IH].
Qed.

Lemma concat_cons sep x y ys :
  String.concat sep (x :: y :: ys) = x +:+ sep +:+ String.concat sep (y :: ys).
Proof. reflexivity. Qed.

(** Joining the pieces with the separator gives the string back. *)
Lemma join_split_from sep s :
  sep <> "" ->
  forall skip piece,
    skip <= String.length s ->
    join sep (split_from sep skip piece s) = piece +:+ skip_chars skip s.
Proof.
  intros Hsep. induction s as [|a s IH]; intros skip piece Hskip.
  - simpl in Hskip. assert (skip = 0) as -> by lia. simpl.
    unfold join. simpl. by rewrite append_empty_r.
  - destruct skip as [|k]; cbn [split_from skip_chars].
    + destruct (String.prefix sep (String a s)) eqn:P.
      * destruct (prefix_skip sep (String a s) P) as [E L].
        destruct sep as [|b sep']; [done|].
        simpl in P. destruct (Ascii.ascii_dec b a) as [->|]; [|discriminate].
        simpl in E, L. rewrite append_cons in E. injection E as E.
        cbn [String.length]. rewrite Nat.sub_succ, Nat.sub_0_r.
        pose proof (split_from_nonempty (String a sep') (String.length sep') "" s) as Hne.
        pose proof (IH (String.length sep') "" ltac:(lia)) as Hrec.
        unfold join in *.
        destruct (split_from (String a sep') (String.length sep') "" s) as [|x xs];
          [done|].
        rewrite concat_cons, Hrec, append_empty_l, append_cons, <- E. reflexivity.
      * rewrite IH by lia. cbn [skip_chars].
        rewrite append_assoc, append_cons, append_empty_l. reflexivity.
    + apply IH. simpl in Hskip. lia.
Qed.

(** Without an occurrence ahead nothing is cut. *)
Lemma split_from_no_occurrence sep s :
  (forall before after, s <> before +:+ sep +:+ after) ->
  forall piece, split_from sep 0 piece s = [piece +:+ s].
Proof.
  induction s as [|a s IH]; intros Hno piece; cbn [split_from].
  - by rewrite append_empty_r.
  - destruct (String.prefix sep (String a s)) eqn:P.
    + exfalso. destruct (prefix_skip sep _ P) as [E _].
      apply (Hno "" (skip_chars (String.length sep) (String a s))).
      rewrite append_empty_l. exact E.
    + rewrite IH.
      * by rewrite append_assoc, append_cons, append_empty_l.
      * intros before after E. apply (Hno (String a before) after).
        rewrite append_cons. by rewrite E.
Qed.

(** X15: the replace pipe splits and joins.  An empty value or an empty
    search string gives the value back; replacing a search string by
    itself gives the value back (joining the pieces of a split with the
    separator restores the string); and a value in which the search
    string does not occur is returned unchanged, whatever the
    replacement. *)
Theorem transform_identities value search replacement :
  transform "" search replacement = "" /\
  transform value "" replacement = value /\
  (search <> "" -> join search (split search value) = value) /\
  transform value search search = value /\
  (~ occurs search value -> transform value search replacement = value).
Proof.
  assert (search <> "" -> join search (split search value) = value) as Hjoin.
  { intros Hs. unfold split.
    rewrite (proj2 (String.eqb_neq search "") Hs).
    rewrite (join_split_from search value Hs 0 "") by lia. reflexivity. }
  split_and!.
  - reflexivity.
  - unfold transform. rewrite orb_true_r. reflexivity.
  - exact Hjoin.
  - unfold transform.
    destruct (String.eqb value "" || String.eqb search "") eqn:E; [reflexivity|].
    apply orb_false_iff in E as [_ E]. apply String.eqb_neq in E. by apply Hjoin.
  - intros Hno. unfold transform.
    destruct (String.eqb value "" || String.eqb search "") eqn:E; [reflexivity|].
    apply orb_false_iff in E as [_ E]. unfold split. rewrite E.
    rewrite split_from_no_occurrence; [reflexivity|].
    intros before after Hv. apply Hno. by exists before, after.
Qed.

Lemma list_ascii_append s1 s2 :
  String.list_ascii_of_string (s1 +:+ s2) =
  String.list_ascii_of_string s1 ++ String.list_ascii_of_string s2.
Proof.
  induction s1 as [|a s1 IH]; [reflexivity|].
  rewrite append_cons. simpl. by rewrite IH.
Qed.

Lemma join_split_char a b s piece :
  String.list_ascii_of_string
    (join (String b "") (split_from (String a "") 0 piece s)) =
  String.list_ascii_of_string piece ++
  List.map (fun x => if Ascii.eqb x a then b else x) (String.list_ascii_of_string s).
Proof.
  revert piece. induction s as [|x s IH]; intros piece.
  - unfold join. simpl. by rewrite app_nil_r.
  - cbn [split_from String.list_ascii_of_string List.map String.length].
    destruct (String.prefix (String a "") (String x s)) eqn:P; simpl in P.
    + destruct (Ascii.ascii_dec a x) as [->|]; [|discriminate].
      rewrite Ascii.eqb_refl.
      pose proof (split_from_nonempty (String x "") 0 "" s) as Hne.
      specialize (IH ""). unfold join in *. change (1 - 1) with 0.
      destruct (split_from (String x "") 0 "" s) as [|y ys]; [done|].
      rewrite concat_cons, !list_ascii_append, IH. reflexivity.
    + destruct (Ascii.ascii_dec a x) as [->|Hne].
      { destruct s; discriminate. }
      rewrite IH, list_ascii_append.
      rewrite (proj2 (Ascii.eqb_neq x a)) by congruence.
      rewrite <- app_assoc. reflexivity.
Qed.

(** X16: replacing one character by another, as in ['on_track'] to
    ['on track'], changes exactly the occurrences of that character and
    nothing else, so the length of the value is kept. *)
Theorem transform_character a b value :
  String.list_ascii_of_string (transform value (String a "") (String b "")) =
  List.map (fun x => if Ascii.eqb x a then b else x)
           (String.list_ascii_of_string value) /\
  String.length (transform value (String a "") (String b "")) = String.length value.
Proof.
  assert (String.list_ascii_of_string (transform value (String a "") (String b "")) =
          List.map (fun x => if Ascii.eqb x a then b else x)
                   (String.list_ascii_of_string value)) as H.
  { unfold transform. destruct value as [|x v]; [reflexivity|].
    simpl orb. cbv iota. unfold split. simpl String.eqb. cbv iota.
    apply (join_split_char a b (String x v) ""). }
  split; [exact H|].
  rewrite <- (String.string_of_list_ascii_of_string (transform _ _ _)), H.
  rewrite <- (String.string_of_list_ascii_of_string value) at 2.
  generalize (String.list_ascii_of_string value). intros l.
  induction l as [|x l IH]; simpl; [reflexivity|by rewrite IH].
Qed.

End Replace.

(* ===================================================================== *)
(** ** From a widget to the host, through the renderer *)
(* ===================================================================== *)

Section EndToEnd.

Implicit Types (reg : Registry.t) (w : World) (ref : ComponentRef).




End EndToEnd.

(* ===================================================================== *)
(** ** The registry as constructed, and the two ways of counting *)
(* ===================================================================== *)

Section Constructed.

Import Registry RegistryAdmin.

Implicit Types (reg : Registry.t) (w : World).

(** X19: the registry as the service constructs it.  Six types are
    registered, each with its own class; a request for one of them is
    created as that type and a request for any other type, the five
    unregistered types of the fallback table included, is created as
    ['text_section']: no request reaches the configuration error. *)
Theorem constructed_registry_resolves k X :
  base.dom (constructed k) =
    ({[ "text_section"; "checklist"; "alert_list"; "timeline"; "metrics_grid";
        "status_cards" ]} : gset string) /\
  size (constructed k) = 6 /\
  componentClass <$> constructed k !! "text_section" = Some (TextSectionComponent k) /\
  componentClass <$> constructed k !! "checklist" = Some (ChecklistComponent k) /\
  componentClass <$> constructed k !! "alert_list" = Some (AlertListComponent k) /\
  componentClass <$> constructed k !! "timeline" = Some (TimelineComponent k) /\
  componentClass <$> constructed k !! "metrics_grid" = Some (MetricsGridComponent k) /\
  componentClass <$> constructed k !! "status_cards" = Some (StatusCardsComponent k) /\
  resolves_to (constructed k) X =
    Some (if bool_decide (X ∈ base.dom (constructed k)) then X else "text_section") /\
  (forall data d,
     exists m, constructed k !! (if bool_decide (X ∈ base.dom (constructed k))
                                 then X else "text_section") = Some m /\
     match createComponent X data (constructed k) d with
     | (_, inr result) =>
         actualType result =
           (if bool_decide (X ∈ base.dom (constructed k)) then X else "text_section") /\
         result_metadata result = m
     | (_, inl e) =>
         construct_throws (componentClass m) = Some e \/
         detectChanges_throws (componentClass m) data = Some e
     end).
Proof.
  assert (is_Some (constructed k !! "text_section")) as Htext.
  { unfold constructed, initializeRegistry, registerComponent.
    rewrite !lookup_insert_ne by discriminate. rewrite lookup_insert_eq. eauto. }
  assert (resolves_to (constructed k) X =
          Some (if bool_decide (X ∈ base.dom (constructed k)) then X else "text_section"))
    as Hres.
  { unfold resolves_to.
    destruct (decide (is_Some (constructed k !! X))) as [Hs|Hs].
    - rewrite bool_decide_eq_true_2 by exact Hs.
      rewrite bool_decide_eq_true_2 by (by apply (elem_of_dom (constructed k))). reflexivity.
    - rewrite bool_decide_eq_false_2 by exact Hs.
      rewrite (bool_decide_eq_true_2 _ Htext).
      rewrite bool_decide_eq_false_2 by (by rewrite elem_of_dom). reflexivity. }
  split_and!.
  - unfold constructed, initializeRegistry, registerComponent.
    rewrite !dom_insert_L, dom_empty_L. set_solver.
  - unfold constructed, initializeRegistry, registerComponent.
    rewrite !map_size_insert_None, map_size_empty; [reflexivity|..];
      rewrite ?lookup_insert_ne by discriminate; apply lookup_empty.
  - unfold constructed, initializeRegistry, registerComponent.
    rewrite !lookup_insert_ne by discriminate. by rewrite lookup_insert_eq.
  - unfold constructed, initializeRegistry, registerComponent.
    rewrite !lookup_insert_ne by discriminate. by rewrite lookup_insert_eq.
  - unfold constructed, initializeRegistry, registerComponent.
    rewrite !lookup_insert_ne by discriminate. by rewrite lookup_insert_eq.
  - unfold constructed, initializeRegistry, registerComponent.
    rewrite !lookup_insert_ne by discriminate. by rewrite lookup_insert_eq.
  - unfold constructed, initializeRegistry, registerComponent.
    rewrite !lookup_insert_ne by discriminate. by rewrite lookup_insert_eq.
  - unfold constructed, initializeRegistry, registerComponent.
    by rewrite lookup_insert_eq.
  - exact Hres.
  - intros data d.
    destruct (createComponent_resolves (constructed k) X data d _ Hres)
      as (m & Hm & _ & H).
    exists m. split; [exact Hm|].
    destruct (createComponent X data (constructed k) d) as [d' [e|res]].
    + destruct H as [[H _]|[_ H]]; [by left|by right].
    + destruct H as (? & ? & _). done.
Qed.

Lemma filter_agree {A} (P Q : A -> Prop) `{!forall x, Decision (P x)}
    `{!forall x, Decision (Q x)} (l : list A) :
  (forall x, x ∈ l -> P x <-> Q x) -> filter P l = filter Q l.
Proof.
  induction l as [|x l IH]; intros Hagree; [reflexivity|].
  rewrite !filter_cons.
  assert (filter P l = filter Q l) as ->
    by (apply IH; intros y Hy; apply Hagree; by right).
  destruct (decide (P x)) as [HP|HP], (decide (Q x)) as [HQ|HQ]; try reflexivity.
  - exfalso. apply HQ, (Hagree x); [left|exact HP].
  - exfalso. apply HP, (Hagree x); [left|exact HQ].
Qed.

(** X20: the renderer and the message service count alike.  When the
    message bound to the renderer is valid and the pass rendered every
    one of its entries, the renderer's count for a category is the count
    [getMessageStats] gives for it; the counts by type agree as well
    whenever every requested type is registered, the renderer counting by
    the type created and the service by the type requested. *)
Theorem renderStats_agree_with_message reg dt w m cs k :
  aguiMessage (renderer w) = Some m ->
  AguiService.validateAguiMessage (Some m) = true ->
  components m = Some cs ->
  totalComponents (renderStats (renderer (renderComponents reg dt w))) = length cs ->
  let s := renderStats (renderer (renderComponents reg dt w)) in
  let ms := AguiService.getMessageStats m in
  totalComponents s = AguiService.componentCount ms /\
  default 0 (componentsByCategory s !! k) =
    default 0 (AguiService.stats_byCategory ms !! k) /\
  ((forall c, c ∈ cs -> is_Some (reg !! type c)) ->
   default 0 (componentsByType s !! k) =
     default 0 (AguiService.stats_byType ms !! k)).
Proof.
  intros Hm Hv Hc Hall. cbv zeta.
  assert (message_components (aguiMessage (renderer w)) = Some cs) as Hmc
    by (rewrite Hm; exact Hc).
  destruct (renderComponents_counts reg dt w cs Hmc) as (Hlen & _ & Hcat & Hty).
  assert (AguiService.componentCount (AguiService.getMessageStats m) = length cs /\
          (forall j, default 0 (AguiService.stats_byType (AguiService.getMessageStats m) !! j)
                     = length (filter (fun c => type c = j) cs)) /\
          (forall j, default 0 (AguiService.stats_byCategory (AguiService.getMessageStats m) !! j)
                     = length (filter (fun c => category c = j) cs)))
    as (Hcount & Mty & Mcat).
  { unfold AguiService.getMessageStats. rewrite Hv, Hc. simpl.
    split_and!; [reflexivity|..];
      intros j; rewrite fold_bump_lookup, lookup_empty; reflexivity. }
  assert (take (totalComponents (renderStats (renderer (renderComponents reg dt w))))
               (sortedComponents (maxComponents (renderer w)) cs)
          = sort_by_priority cs) as Hrendered.
  { rewrite Hall in Hlen |- *.
    unfold sortedComponents, slice0 in *.
    rewrite take_take in Hlen |- *.
    rewrite length_take, (Permutation_length (sort_by_priority_perm cs)) in Hlen.
    apply take_ge. rewrite (Permutation_length (sort_by_priority_perm cs)). lia. }
  rewrite Hrendered in Hcat, Hty.
  split_and!.
  - by rewrite Hcount.
  - rewrite Hcat, Mcat. apply Permutation_length.
    by rewrite (sort_by_priority_perm cs).
  - intros Hreg. rewrite Hty, Mty.
    rewrite (filter_agree _ (fun c => type c = k)).
    + apply Permutation_length. by rewrite (sort_by_priority_perm cs).
    + intros c Hin. rewrite (sort_by_priority_perm cs) in Hin.
      unfold resolves_to. rewrite bool_decide_eq_true_2 by (by apply Hreg).
      split; congruence.
Qed.

End Constructed.

(* ===================================================================== *)
(** ** Instances on the sample manifests *)
(* ===================================================================== *)

Section MoreInstances.

Import Registry RegistryAdmin Sample.

Lemma host_accepts_reg_text : host_accepts reg_text.
Proof.
  intros t m data Hm. unfold reg_text, registerComponent in Hm.
  destruct (decide (t = "text_section")) as [->|Hne].
  - rewrite lookup_insert_eq in Hm. injection Hm as <-. split; reflexivity.
  - rewrite lookup_insert_ne, lookup_empty in Hm by congruence. discriminate.
Defined.

(** A table, which no class is registered for, is created as a text
    section. *)
Lemma createComponent_always_lands_witness :
  exists d' result,
    createComponent "data_table" (Js.Obj []) reg_text (dom initialWorld) =
      (d', inr result) /\
    reg_text !! actualType result = Some (result_metadata result) /\
    (wasOriginalType result = false -> actualType result = "text_section").
Proof.
  apply (createComponent_always_lands reg_text "data_table" (Js.Obj [])
           (dom initialWorld)).
  - vm_compute. eexists. reflexivity.
  - exact host_accepts_reg_text.
Defined.

(** The first widget of a pass over [pair] is destroyed by the next
    pass and is no longer managed after it. *)
Lemma renderComponents_replaces_witness :
  0 ∈ createdComponents (renderer (renderComponents reg_text 5 pair)) /\
  (exists i', heap (dom (renderComponents reg_text 5 (renderComponents reg_text 5 pair)))
                !! 0 = Some i' /\ destroyed i' = true) /\
  0 ∉ createdComponents
        (renderer (renderComponents reg_text 5 (renderComponents reg_text 5 pair))).
Proof.
  assert (managed_in_container (renderComponents reg_text 5 pair)) as Hm.
  { intros ref Hin. vm_compute in Hin |- *. exact Hin. }
  assert (0 ∈ createdComponents (renderer (renderComponents reg_text 5 pair))) as Hin.
  { vm_compute. apply list_elem_of_here. }
  assert (heap (dom (renderComponents reg_text 5 pair)) !! 0 = Some widget_c2) as Hi.
  { vm_compute. reflexivity. }
  destruct (renderComponents_replaces reg_text 5 (renderComponents reg_text 5 pair) Hm)
    as (Hd & Hn & _).
  split_and!.
  - exact Hin.
  - exact (Hd 0 widget_c2 Hin Hi).
  - exact (Hn 0 widget_c2 Hin Hi).
Defined.




(** Over [pair] with only the text section registered every entry is
    rendered, and the renderer and the service count one widget of
    category [content] each. *)
Lemma renderStats_agree_with_message_witness :
  AguiService.validateAguiMessage (Some (manifest "1.0" (Some [c1; c2]))) = true /\
  default 0 (componentsByCategory
               (renderStats (renderer (renderComponents reg_text 5 pair)))
             !! "content") =
  default 0 (AguiService.stats_byCategory
               (AguiService.getMessageStats (manifest "1.0" (Some [c1; c2])))
             !! "content").
Proof.
  assert (AguiService.validateAguiMessage (Some (manifest "1.0" (Some [c1; c2]))) = true)
    as Hv by (vm_compute; reflexivity).
  split; [exact Hv|].
  destruct (renderStats_agree_with_message reg_text 5 pair
              (manifest "1.0" (Some [c1; c2])) [c1; c2] "content")
    as (_ & Hcat & _).
  - reflexivity.
  - exact Hv.
  - reflexivity.
  - vm_compute. reflexivity.
  - exact Hcat.
Defined.

End MoreInstances.
